(** * Genesis registry of iotex-core: parameters, fork gates, commitment

    A shallow embedding of [blockchain/genesis/genesis.go].  Go's [uint64]
    and [int64] values are integers of [Z] (the functions embedded here only
    compare and copy them, so no wrap-around arises), Go strings are byte
    strings, [map[string]string] is a [gmap string string], slices are lists.
    A Go panic is an explicit result.  The packages the file imports
    (protobuf, the hash, the address codecs, the YAML loader) are interfaces
    that the embedded functions take as parameters. *)

From Stdlib Require Import ZArith Lia Ascii String.
From stdpp Require Import base decidable option list sorting strings pretty gmap
  fin_maps finite vector.

Local Open Scope string_scope.
Local Open Scope Z_scope.

(** ** Machine integers *)

Definition MaxUint64 : Z := 18446744073709551615.

Definition uint64 (z : Z) : Prop := 0 <= z <= MaxUint64.

(** [time.Duration] counts nanoseconds in an [int64]. *)
Definition Duration := Z.
Definition Second : Duration := 1000000000.
Definition Hour : Duration := 3600 * Second.
Definition Nanoseconds (d : Duration) : Z := d.

(** [float64], kept as its IEEE-754 bit pattern; no embedded function
    computes with it. *)
Definition float64 := Z.

(** ** The parameter record *)

Record Blockchain := mkBlockchain {
  Timestamp : Z;
  BlockGasLimit : Z;
  TsunamiBlockGasLimit : Z;
  WakeBlockGasLimit : Z;
  ActionGasLimit : Z;
  BlockInterval : Duration;
  NumSubEpochs : Z;
  DardanellesNumSubEpochs : Z;
  WakeNumSubEpochs : Z;
  NumDelegates : Z;
  NumCandidateDelegates : Z;
  TimeBasedRotation : bool;
  MinBlocksForBlobRetention : Z;
  PacificBlockHeight : Z;
  AleutianBlockHeight : Z;
  BeringBlockHeight : Z;
  CookBlockHeight : Z;
  DardanellesBlockHeight : Z;
  DaytonaBlockHeight : Z;
  EasterBlockHeight : Z;
  FbkMigrationBlockHeight : Z;
  FairbankBlockHeight : Z;
  GreenlandBlockHeight : Z;
  HawaiiBlockHeight : Z;
  IcelandBlockHeight : Z;
  JutlandBlockHeight : Z;
  KamchatkaBlockHeight : Z;
  LordHoweBlockHeight : Z;
  MidwayBlockHeight : Z;
  NewfoundlandBlockHeight : Z;
  OkhotskBlockHeight : Z;
  PalauBlockHeight : Z;
  QuebecBlockHeight : Z;
  RedseaBlockHeight : Z;
  SumatraBlockHeight : Z;
  TsunamiBlockHeight : Z;
  UpernavikBlockHeight : Z;
  VanuatuBlockHeight : Z;
  WakeBlockHeight : Z;
  ToBeEnabledBlockHeight : Z
}.

Record Account := mkAccount {
  InitBalanceMap : gmap string string;
  ReplayDeployerWhitelist : list string
}.

Record Delegate := mkDelegate {
  OperatorAddrStr : string;
  RewardAddrStr : string;
  VotesStr : string
}.

Record Poll := mkPoll {
  PollMode : string;
  EnableGravityChainVoting : bool;
  GravityChainStartHeight : Z;
  GravityChainCeilingHeight : Z;
  GravityChainHeightInterval : Z;
  RegisterContractAddress : string;
  StakingContractAddress : string;
  NativeStakingContractAddress : string;
  NativeStakingContractCode : string;
  ConsortiumCommitteeContractCode : string;
  VoteThreshold : string;
  ScoreThreshold : string;
  SelfStakingThreshold : string;
  Delegates : list Delegate;
  ProbationEpochPeriod : Z;
  ProbationIntensityRate : Z;
  UnproductiveDelegateMaxCacheSize : Z;
  SystemStakingContractAddress : string;
  SystemStakingContractHeight : Z;
  SystemSGDContractAddress : string;
  SystemSGDContractHeight : Z;
  SystemStakingContractV2Address : string;
  SystemStakingContractV2Height : Z;
  SystemStakingContractV3Address : string;
  SystemStakingContractV3Height : Z
}.

Record Rewarding := mkRewarding {
  InitBalanceStr : string;
  BlockRewardStr : string;
  DardanellesBlockRewardStr : string;
  EpochRewardStr : string;
  AleutianEpochRewardStr : string;
  NumDelegatesForEpochReward : Z;
  ExemptAddrStrsFromEpochReward : list string;
  FoundationBonusStr : string;
  NumDelegatesForFoundationBonus : Z;
  FoundationBonusLastEpoch : Z;
  FoundationBonusP2StartEpoch : Z;
  FoundationBonusP2EndEpoch : Z;
  ProductivityThreshold : Z;
  WakeBlockRewardStr : string
}.

Record VoteWeightCalConsts := mkVoteWeightCalConsts {
  DurationLg : float64;
  AutoStake : float64;
  SelfStake : float64
}.

Record RegistrationConsts := mkRegistrationConsts {
  Fee : string;
  MinSelfStake : string
}.

Record BootstrapCandidate := mkBootstrapCandidate {
  OwnerAddress : string;
  OperatorAddress : string;
  RewardAddress : string;
  Name : string;
  SelfStakingTokens : string
}.

Record Staking := mkStaking {
  VoteWeightCalConsts_ : VoteWeightCalConsts;
  RegistrationConsts_ : RegistrationConsts;
  WithdrawWaitingPeriod : Duration;
  MinStakeAmount : string;
  BootstrapCandidates : list BootstrapCandidate;
  EndorsementWithdrawWaitingBlocks : Z
}.

(** [Genesis] embeds the five sub-records; the projections below stand for
    Go's promoted fields. *)
Record Genesis := mkGenesis {
  gBlockchain : Blockchain;
  gAccount : Account;
  gPoll : Poll;
  gRewarding : Rewarding;
  gStaking : Staking
}.

(** ** Activation gates *)

Definition isPost (g : Blockchain) (targetHeight height : Z) : bool :=
  height >=? targetHeight.

Definition IsPacific (g : Blockchain) (height : Z) : bool :=
  isPost g (PacificBlockHeight g) height.
Definition IsAleutian (g : Blockchain) (height : Z) : bool :=
  isPost g (AleutianBlockHeight g) height.
Definition IsBering (g : Blockchain) (height : Z) : bool :=
  isPost g (BeringBlockHeight g) height.
Definition IsCook (g : Blockchain) (height : Z) : bool :=
  isPost g (CookBlockHeight g) height.
Definition IsDardanelles (g : Blockchain) (height : Z) : bool :=
  isPost g (DardanellesBlockHeight g) height.
Definition IsDaytona (g : Blockchain) (height : Z) : bool :=
  isPost g (DaytonaBlockHeight g) height.
Definition IsEaster (g : Blockchain) (height : Z) : bool :=
  isPost g (EasterBlockHeight g) height.
Definition IsFairbank (g : Blockchain) (height : Z) : bool :=
  isPost g (FairbankBlockHeight g) height.
Definition IsFbkMigration (g : Blockchain) (height : Z) : bool :=
  isPost g (FbkMigrationBlockHeight g) height.
Definition IsGreenland (g : Blockchain) (height : Z) : bool :=
  isPost g (GreenlandBlockHeight g) height.
Definition IsHawaii (g : Blockchain) (height : Z) : bool :=
  isPost g (HawaiiBlockHeight g) height.
Definition IsIceland (g : Blockchain) (height : Z) : bool :=
  isPost g (IcelandBlockHeight g) height.
Definition IsJutland (g : Blockchain) (height : Z) : bool :=
  isPost g (JutlandBlockHeight g) height.
Definition IsKamchatka (g : Blockchain) (height : Z) : bool :=
  isPost g (KamchatkaBlockHeight g) height.
Definition IsLordHowe (g : Blockchain) (height : Z) : bool :=
  isPost g (LordHoweBlockHeight g) height.
Definition IsMidway (g : Blockchain) (height : Z) : bool :=
  isPost g (MidwayBlockHeight g) height.
Definition IsNewfoundland (g : Blockchain) (height : Z) : bool :=
  isPost g (NewfoundlandBlockHeight g) height.
Definition IsOkhotsk (g : Blockchain) (height : Z) : bool :=
  isPost g (OkhotskBlockHeight g) height.
Definition IsPalau (g : Blockchain) (height : Z) : bool :=
  isPost g (PalauBlockHeight g) height.
Definition IsQuebec (g : Blockchain) (height : Z) : bool :=
  isPost g (QuebecBlockHeight g) height.
Definition IsRedsea (g : Blockchain) (height : Z) : bool :=
  isPost g (RedseaBlockHeight g) height.
Definition IsSumatra (g : Blockchain) (height : Z) : bool :=
  isPost g (SumatraBlockHeight g) height.
Definition IsTsunami (g : Blockchain) (height : Z) : bool :=
  isPost g (TsunamiBlockHeight g) height.
Definition IsUpernavik (g : Blockchain) (height : Z) : bool :=
  isPost g (UpernavikBlockHeight g) height.
Definition IsVanuatu (g : Blockchain) (height : Z) : bool :=
  isPost g (VanuatuBlockHeight g) height.
Definition IsWake (g : Blockchain) (height : Z) : bool :=
  isPost g (WakeBlockHeight g) height.
Definition IsToBeEnabled (g : Blockchain) (height : Z) : bool :=
  isPost g (ToBeEnabledBlockHeight g) height.

Definition BlockGasLimitByHeight (g : Blockchain) (height : Z) : Z :=
  if isPost g (WakeBlockHeight g) height then WakeBlockGasLimit g
  else if isPost g (TsunamiBlockHeight g) height then TsunamiBlockGasLimit g
  else BlockGasLimit g.

(** The tiers of the block gas limit: activation height and limit. *)
Definition gasTiers (g : Blockchain) (h0 : Z) : list (Z * Z) :=
  [(h0, BlockGasLimit g); (TsunamiBlockHeight g, TsunamiBlockGasLimit g);
   (WakeBlockHeight g, WakeBlockGasLimit g)].

(** The named forks, to quantify over the predicates above. *)
Inductive Fork :=
  | Pacific | Aleutian | Bering | Cook | Dardanelles | Daytona | Easter
  | Fairbank | FbkMigration | Greenland | Hawaii | Iceland | Jutland
  | Kamchatka | LordHowe | Midway | Newfoundland | Okhotsk | Palau | Quebec
  | Redsea | Sumatra | Tsunami | Upernavik | Vanuatu | Wake | ToBeEnabled.

(** The configured activation height H_F of a fork. *)
Definition forkHeight (g : Blockchain) (F : Fork) : Z :=
  match F with
  | Pacific => PacificBlockHeight g | Aleutian => AleutianBlockHeight g
  | Bering => BeringBlockHeight g | Cook => CookBlockHeight g
  | Dardanelles => DardanellesBlockHeight g | Daytona => DaytonaBlockHeight g
  | Easter => EasterBlockHeight g | Fairbank => FairbankBlockHeight g
  | FbkMigration => FbkMigrationBlockHeight g
  | Greenland => GreenlandBlockHeight g | Hawaii => HawaiiBlockHeight g
  | Iceland => IcelandBlockHeight g | Jutland => JutlandBlockHeight g
  | Kamchatka => KamchatkaBlockHeight g | LordHowe => LordHoweBlockHeight g
  | Midway => MidwayBlockHeight g | Newfoundland => NewfoundlandBlockHeight g
  | Okhotsk => OkhotskBlockHeight g | Palau => PalauBlockHeight g
  | Quebec => QuebecBlockHeight g | Redsea => RedseaBlockHeight g
  | Sumatra => SumatraBlockHeight g | Tsunami => TsunamiBlockHeight g
  | Upernavik => UpernavikBlockHeight g | Vanuatu => VanuatuBlockHeight g
  | Wake => WakeBlockHeight g | ToBeEnabled => ToBeEnabledBlockHeight g
  end.

(** The exported predicate of a fork. *)
Definition isActive (g : Blockchain) (F : Fork) : Z -> bool :=
  match F with
  | Pacific => IsPacific g | Aleutian => IsAleutian g | Bering => IsBering g
  | Cook => IsCook g | Dardanelles => IsDardanelles g
  | Daytona => IsDaytona g | Easter => IsEaster g | Fairbank => IsFairbank g
  | FbkMigration => IsFbkMigration g | Greenland => IsGreenland g
  | Hawaii => IsHawaii g | Iceland => IsIceland g | Jutland => IsJutland g
  | Kamchatka => IsKamchatka g | LordHowe => IsLordHowe g
  | Midway => IsMidway g | Newfoundland => IsNewfoundland g
  | Okhotsk => IsOkhotsk g | Palau => IsPalau g | Quebec => IsQuebec g
  | Redsea => IsRedsea g | Sumatra => IsSumatra g | Tsunami => IsTsunami g
  | Upernavik => IsUpernavik g | Vanuatu => IsVanuatu g | Wake => IsWake g
  | ToBeEnabled => IsToBeEnabled g
  end.

(** ** Results of calls that may panic *)

Inductive outcome (A : Type) : Type :=
  | Return (a : A)
  | Panic (msg : string).
Arguments Return {A} a.
Arguments Panic {A} msg.

(** ** Built-in defaults *)

Section Defaults.
(** [unit.ConvertIotxToRau] and the [String] method of [big.Int] live
    outside this package; the defaults only pass values through them. *)
Variable ConvertIotxToRau : Z -> Z.
Variable BigInt_String : Z -> string.

Definition defaultConfig : Genesis := {|
  gBlockchain := {|
    Timestamp := 1553558500;
    BlockGasLimit := 20000000;
    TsunamiBlockGasLimit := 50000000;
    WakeBlockGasLimit := 25000000;
    ActionGasLimit := 5000000;
    BlockInterval := 10 * Second;
    NumSubEpochs := 15;
    DardanellesNumSubEpochs := 30;
    WakeNumSubEpochs := 60;
    NumDelegates := 24;
    NumCandidateDelegates := 36;
    TimeBasedRotation := true;
    MinBlocksForBlobRetention := 345600;
    PacificBlockHeight := 432001;
    AleutianBlockHeight := 864001;
    BeringBlockHeight := 1512001;
    CookBlockHeight := 1641601;
    DardanellesBlockHeight := 1816201;
    DaytonaBlockHeight := 3238921;
    EasterBlockHeight := 4478761;
    FbkMigrationBlockHeight := 5157001;
    FairbankBlockHeight := 5165641;
    GreenlandBlockHeight := 6544441;
    HawaiiBlockHeight := 11267641;
    IcelandBlockHeight := 12289321;
    JutlandBlockHeight := 13685401;
    KamchatkaBlockHeight := 13816441;
    LordHoweBlockHeight := 13979161;
    MidwayBlockHeight := 16509241;
    NewfoundlandBlockHeight := 17662681;
    OkhotskBlockHeight := 21542761;
    PalauBlockHeight := 22991401;
    QuebecBlockHeight := 24838201;
    RedseaBlockHeight := 26704441;
    SumatraBlockHeight := 28516681;
    TsunamiBlockHeight := 29275561;
    UpernavikBlockHeight := 31174201;
    VanuatuBlockHeight := 33730921;
    WakeBlockHeight := 36893881;
    ToBeEnabledBlockHeight := MaxUint64
  |};
  gAccount := {|
    InitBalanceMap := ∅;
    ReplayDeployerWhitelist := ["0x3fab184622dc19b6109349b94811493bf2a45362"]
  |};
  gPoll := {|
    PollMode := "nativeMix";
    EnableGravityChainVoting := true;
    GravityChainStartHeight := 7614500;
    GravityChainCeilingHeight := 10199000;
    GravityChainHeightInterval := 100;
    RegisterContractAddress := "0x95724986563028deb58f15c5fac19fa09304f32d";
    StakingContractAddress := "0x87c9dbff0016af23f5b1ab9b8e072124ab729193";
    NativeStakingContractAddress := "io1xpq62aw85uqzrccg9y5hnryv8ld2nkpycc3gza";
    NativeStakingContractCode := EmptyString;
    ConsortiumCommitteeContractCode := EmptyString;
    VoteThreshold := "100000000000000000000";
    ScoreThreshold := "2000000000000000000000000";
    SelfStakingThreshold := "1200000000000000000000000";
    Delegates := [];
    ProbationEpochPeriod := 6;
    ProbationIntensityRate := 90;
    UnproductiveDelegateMaxCacheSize := 20;
    SystemStakingContractAddress := "io1drde9f483guaetl3w3w6n6y7yv80f8fael7qme";
    SystemStakingContractHeight := 24486464;
    SystemSGDContractAddress := EmptyString;
    SystemSGDContractHeight := 0;
    SystemStakingContractV2Address := "io13mjjr5shj4mte39axwsqjp8fdggk0qzjhatprp";
    SystemStakingContractV2Height := 30934838;
    SystemStakingContractV3Address := "io1vkcvq4ywarvfj4u9zwlqedfsttalq55jmtmqcu";
    SystemStakingContractV3Height := 36726575
  |};
  gRewarding := {|
    InitBalanceStr := BigInt_String (ConvertIotxToRau 200000000);
    BlockRewardStr := BigInt_String (ConvertIotxToRau 16);
    DardanellesBlockRewardStr := BigInt_String (ConvertIotxToRau 8);
    EpochRewardStr := BigInt_String (ConvertIotxToRau 12500);
    AleutianEpochRewardStr := BigInt_String (ConvertIotxToRau 18750);
    NumDelegatesForEpochReward := 100;
    ExemptAddrStrsFromEpochReward := [
      "io15fqav3tugm96ge7anckx0k4gukz5m4mqf0jpv3";
      "io1x9kjkr0qv2fa7j4t2as8lrj223xxsqt4tl7xp7";
      "io1ar5l5s268rtgzshltnqv88mua06ucm58dx678y";
      "io1xsx5n94kg2zv64r7tm8vyz9mh86amfak9ka9xx";
      "io1vtm2zgn830pn6auc2cvnchgwdaefa9gr4z0s86";
      "io159fv8mu9d5djk8u2t0flgw4yqmt6fg98uqjka8";
      "io1c3r4th3zrk4uhv83a9gr4gvn3y6pzaj6mc84ea";
      "io14vmhs9c75r2ptxdaqrtk0dz7skct30pxmt69d9";
      "io1gf08snppu2a2wfd50pjas2j6q2kcxjzqph3pep";
      "io1u5ff879gg2dw9vfpxr2tsmuaz07e2rea6gvl7s";
      "io1du4eq4f88n4wyc026l3gamjwetlgsg4jz7j884";
      "io12yxdwewry70gr9fs6fphyfaky9c7gurmzk8f4f";
      "io1lx53nfgq2dnzrz5ecz2ecs7vvl6qll0mkn970w";
      "io1u5xy0ecnrjrdkzyctfqh37lgr5pcfzphgqrdwt";
      "io1aj8arp07xw6s9rgh42af5xf98csyuehnnwlk52";
      "io18gdmv5g0xhkuj2cdyvp8076uwhl7h3gesmzh8u";
      "io1td5fvamm3qf22r5h93gay6ggqdh9z0edeqx63u";
      "io1qs785af9k9xf3xgd6vut7um9zcthtrvsn2xap2";
      "io127ftn4ry6wgxdrw4hcd6gdwqlq70ujk98dvtw5";
      "io1wv5m0xyermvr2n0wjx2cjsqwyk863drdl5qfyn";
      "io1v0q5g2f8z6l3v25krl677chdx7g5pwt9kvqfpc";
      "io1xsdegzr2hdj5sv5ad4nr0yfgpsd98e40u6svem";
      "io1fks575kklxafq4fwjccmz5d3pmq5ynxk5h6h0v";
      "io15npzu93ug8r3zdeysppnyrcdu2xssz0lcam9l9";
      "io1gh7xfrsnj6p5uqgjpk9xq6jg9na28aewgp7a9v";
      "io1nyjs526mnqcsx4twa7nptkg08eclsw5c2dywp4";
      "io1jafqlvntcxgyp6e0uxctt3tljzc3vyv5hg4ukh";
      "io1z7mjef7w528nasnsafan0rp6yuvkvq405l6r8j";
      "io1cup9k8hl8fp40vrj29ex8djc346780dk223end";
      "io1scs89jur7qklzh5vfrmha3c40u8yajjx6kvzg9";
      "io10kyvvzu08pjeylymq4umknjal25ea3ptfknrpf";
      "io18mvepyxkcd5jkyplfqn27ydkpsendrey3xe2l8";
      "io1nz40npqa3yvek4zdasmqaetl2j4h6urejfkera";
      "io1m7p9yrejngxyvxhvn7p9g9uwlvd7uuamg8wcjd";
      "io1cwwm08dwv9phh3wt5vsdhu9gcypw9q2sc7pl9s";
      "io14aj46jjmtt83vts9syhrs9st80czumg40cjasl"
    ];
    FoundationBonusStr := BigInt_String (ConvertIotxToRau 80);
    NumDelegatesForFoundationBonus := 36;
    FoundationBonusLastEpoch := 8760;
    FoundationBonusP2StartEpoch := 9698;
    FoundationBonusP2EndEpoch := 18458;
    ProductivityThreshold := 85;
    WakeBlockRewardStr := "4000000000000000000"
  |};
  gStaking := {|
    VoteWeightCalConsts_ := {|
      (* 1.2, 1 and 1.06 as IEEE-754 doubles *)
      DurationLg := 4608083138725491507;
      AutoStake := 4607182418800017408;
      SelfStake := 4607452634777659638
    |};
    RegistrationConsts_ := {|
      Fee := BigInt_String (ConvertIotxToRau 100);
      MinSelfStake := BigInt_String (ConvertIotxToRau 1200000)
    |};
    WithdrawWaitingPeriod := 3 * 24 * Hour;
    MinStakeAmount := BigInt_String (ConvertIotxToRau 100);
    BootstrapCandidates := [];
    EndorsementWithdrawWaitingBlocks := 24 * 60 * 60 / 5
  |}
|}.
End Defaults.

Definition defaultInitBalanceMap : gmap string string :=
  list_to_map [
    ("io1uqhmnttmv0pg8prugxxn7d8ex9angrvfjfthxa", "9800000000000000000000000000");
    ("io1v3gkc49d5vwtdfdka2ekjl3h468egun8e43r7z", "100000000000000000000000000");
    ("io1vrl48nsdm8jaujccd9cx4ve23cskr0ys6urx92", "100000000000000000000000000");
    ("io1llupp3n8q5x8usnr5w08j6hc6hn55x64l46rr7", "100000000000000000000000000");
    ("io1ns7y0pxmklk8ceattty6n7makpw76u770u5avy", "100000000000000000000000000");
    ("io1xuavja5dwde8pvy4yms06yyncad4yavghjhwra", "100000000000000000000000000");
    ("io1cdqx6p5rquudxuewflfndpcl0l8t5aezen9slr", "100000000000000000000000000");
    ("io1hh97f273nhxcq8ajzcpujtt7p9pqyndfmavn9r", "100000000000000000000000000");
    ("io1yhvu38epz5vmkjaclp45a7t08r27slmcc0zjzh", "100000000000000000000000000");
    ("io1cl6rl2ev5dfa988qmgzg2x4hfazmp9vn2g66ng", "100000000000000000000000000");
    ("io1skmqp33qme8knyw0fzgt9takwrc2nvz4sevk5c", "100000000000000000000000000");
    ("io1fxzh50pa6qc6x5cprgmgw4qrp5vw97zk5pxt3q", "100000000000000000000000000");
    ("io1jh0ekmccywfkmj7e8qsuzsupnlk3w5337hjjg2", "100000000000000000000000000");
    ("io1juvx5g063eu4ts832nukp4vgcwk2gnc5cu9ayd", "100000000000000000000000000");
    ("io19d0p3ah4g8ww9d7kcxfq87yxe7fnr8rpth5shj", "100000000000000000000000000");
    ("io1ed52svvdun2qv8sf2m0xnynuxfaulv6jlww7ur", "100000000000000000000000000");
    ("io158hyzrmf4a8xll7gfc8xnwlv70jgp44tzy5nvd", "100000000000000000000000000");
    ("io19kshh892255x4h5ularvr3q3al2v8cgl80fqrt", "100000000000000000000000000");
    ("io1ph0u2psnd7muq5xv9623rmxdsxc4uapxhzpg02", "100000000000000000000000000");
    ("io1znka733xefxjjw2wqddegplwtefun0mfdmz7dw", "100000000000000000000000000");
    ("io13sj9mzpewn25ymheukte4v39hvjdtrfp00mlyv", "100000000000000000000000000");
    ("io14gnqxf9dpkn05g337rl7eyt2nxasphf5m6n0rd", "100000000000000000000000000");
    ("io1l3wc0smczyay8xq747e2hw63mzg3ctp6uf8wsg", "100000000000000000000000000");
    ("io1q4tdrahguffdu4e9j9aj4f38p2nee0r9vlhx7s", "100000000000000000000000000");
    ("io1k9y4a9juk45zaqwvjmhtz6yjc68twqds4qcvzv", "100000000000000000000000000");
    ("io15flratm0nhh5xpxz2lznrrpmnwteyd86hxdtj0", "100000000000000000000000000");
    ("io1eq4ehs6xx6zj9gcsax7h3qydwlxut9xcfcjras", "100000000000000000000000000");
    ("io10a298zmzvrt4guq79a9f4x7qedj59y7ery84he", "100000000000000000000000000")
  ].

(** The zero value [Genesis{}] returned next to an error. *)
Definition zeroGenesis : Genesis := {|
  gBlockchain :=
    mkBlockchain 0 0 0 0 0 0 0 0 0 0 0 false 0 0 0 0 0 0 0 0 0 0 0 0 0 0 0 0 0
      0 0 0 0 0 0 0 0 0 0 0;
  gAccount := mkAccount ∅ [];
  gPoll :=
    mkPoll EmptyString false 0 0 0 EmptyString EmptyString EmptyString
      EmptyString EmptyString EmptyString EmptyString EmptyString [] 0 0 0
      EmptyString 0 EmptyString 0 EmptyString 0 EmptyString 0;
  gRewarding :=
    mkRewarding EmptyString EmptyString EmptyString EmptyString EmptyString 0
      [] EmptyString 0 0 0 0 0 EmptyString;
  gStaking :=
    mkStaking (mkVoteWeightCalConsts 0 0 0)
      (mkRegistrationConsts EmptyString EmptyString) 0 EmptyString [] 0
|}.

(** ** The process-wide genesis timestamp *)

Module Pkg.
(** The package-level variables [_genesisTs] and [_loadGenesisTs]; of
    the [sync.Once] only its done flag matters to a sequential caller. *)
Record vars := mkVars {
  genesisTs : Z;
  loadGenesisTs : bool
}.

Definition init : vars := {| genesisTs := 0; loadGenesisTs := false |}.

(** [once.Do(f)]: runs [f] unless an earlier [Do] already ran. *)
Definition Once_Do (f : vars -> vars) (s : vars) : vars :=
  if loadGenesisTs s then s
  else {| genesisTs := genesisTs (f s); loadGenesisTs := true |}.

Definition SetGenesisTimestamp (ts : Z) (s : vars) : vars :=
  Once_Do (fun s0 => {| genesisTs := ts; loadGenesisTs := loadGenesisTs s0 |}) s.

Definition Timestamp (s : vars) : Z := genesisTs s.

(** A caller's view: a sequence of calls and the values the reads return. *)
Inductive call :=
  | CallSet (ts : Z)
  | CallRead.

Fixpoint run (cs : list call) (s : vars) : vars * list Z :=
  match cs with
  | [] => (s, [])
  | CallSet ts :: cs' => run cs' (SetGenesisTimestamp ts s)
  | CallRead :: cs' =>
      let '(s', reads) := run cs' s in (s', Timestamp s :: reads)
  end.
End Pkg.

(** ** Derived amounts *)

(** [new(big.Int).SetString(s, 10)] of Go's [math/big]: an optional sign,
    then the longest run of decimal digits, which has to be non-empty and to
    reach the end of the string. *)

Definition digitValue (c : ascii) : option Z :=
  let n := Z.of_N (N_of_ascii c) in
  if (48 <=? n) && (n <=? 57) then Some (n - 48) else None.

Definition scanSign (s : string) : option (bool * string) :=
  match s with
  | EmptyString => None
  | String c r =>
      if Ascii.eqb c "-"%char then Some (true, r)
      else if Ascii.eqb c "+"%char then Some (false, r)
      else Some (false, s)
  end.

Fixpoint natScan (acc : Z) (count : nat) (s : string) : Z * nat * string :=
  match s with
  | EmptyString => (acc, count, EmptyString)
  | String c r =>
      match digitValue c with
      | Some d => natScan (acc * 10 + d) (S count) r
      | None => (acc, count, s)
      end
  end.

Definition SetString10 (s : string) : option Z :=
  match scanSign s with
  | None => None
  | Some (neg, r) =>
      let '(abs, count, rest) := natScan 0 0 r in
      match count, rest with
      | O, _ => None
      | S _, EmptyString => Some (if neg then - abs else abs)
      | S _, String _ _ => None
      end
  end.

Definition Votes (d : Delegate) : outcome Z :=
  match SetString10 (VotesStr d) with
  | Some val => Return val
  | None =>
      Panic ("Error when casting votes string " +:+ VotesStr d +:+ " into big int")
  end.

Definition InitBalance (r : Rewarding) : outcome Z :=
  match SetString10 (InitBalanceStr r) with
  | Some val => Return val
  | None =>
      Panic ("Error when casting init balance string " +:+ InitBalanceStr r
             +:+ " into big int")
  end.

Definition BlockReward (r : Rewarding) : outcome Z :=
  match SetString10 (BlockRewardStr r) with
  | Some val => Return val
  | None =>
      Panic ("Error when casting block reward string " +:+ BlockRewardStr r
             +:+ " into big int")
  end.

Definition EpochReward (r : Rewarding) : outcome Z :=
  match SetString10 (EpochRewardStr r) with
  | Some val => Return val
  | None =>
      Panic ("Error when casting epoch reward string " +:+ EpochRewardStr r
             +:+ " into big int")
  end.

Definition AleutianEpochReward (r : Rewarding) : outcome Z :=
  match SetString10 (AleutianEpochRewardStr r) with
  | Some val => Return val
  | None =>
      Panic ("Error when casting epoch reward string "
             +:+ AleutianEpochRewardStr r +:+ " into big int")
  end.

Definition DardanellesBlockReward (r : Rewarding) : outcome Z :=
  match SetString10 (DardanellesBlockRewardStr r) with
  | Some val => Return val
  | None =>
      Panic ("Error when casting block reward string "
             +:+ DardanellesBlockRewardStr r +:+ " into big int")
  end.

Definition WakeBlockReward (r : Rewarding) : outcome Z :=
  match SetString10 (WakeBlockRewardStr r) with
  | Some val => Return val
  | None =>
      Panic ("Error when casting block reward string " +:+ WakeBlockRewardStr r
             +:+ " into big int")
  end.

(** The message of this one quotes [EpochRewardStr], as the source does. *)
Definition FoundationBonus (r : Rewarding) : outcome Z :=
  match SetString10 (FoundationBonusStr r) with
  | Some val => Return val
  | None =>
      Panic ("Error when casting bootstrap bonus string " +:+ EpochRewardStr r
             +:+ " into big int")
  end.

(** Base-10 numerals, independently of the scanner: an optional sign in
    front of a non-empty digit sequence, valued positionally. *)
Inductive Sign := NoSign | PlusSign | MinusSign.

Definition signText (sg : Sign) : string :=
  match sg with NoSign => EmptyString | PlusSign => "+" | MinusSign => "-" end.

Definition signApply (sg : Sign) (n : Z) : Z :=
  match sg with MinusSign => - n | _ => n end.

Definition digitChar (d : Z) : ascii := ascii_of_N (Z.to_N (48 + d)).

Fixpoint renderDigits (ds : list Z) : string :=
  match ds with
  | [] => EmptyString
  | d :: r => String (digitChar d) (renderDigits r)
  end.

Fixpoint digitsValue (ds : list Z) : Z :=
  match ds with
  | [] => 0
  | d :: r => d * 10 ^ Z.of_nat (length r) + digitsValue r
  end.

Definition base10_denotes (s : string) (z : Z) : Prop :=
  exists sg ds,
    ds <> [] /\ Forall (fun d => 0 <= d <= 9) ds /\
    s = signText sg +:+ renderDigits ds /\ z = signApply sg (digitsValue ds).

Definition valid_base10 (s : string) : Prop := exists z, base10_denotes s z.

(** What an amount accessor owes for the field string [s]. *)
Definition amount_contract (s : string) (res : outcome Z) : Prop :=
  (forall z, base10_denotes s z -> res = Return z) /\
  (~ valid_base10 s -> exists msg, res = Panic msg).

(** ** The replay-deployer allowlist *)

(** The address packages ([iotex-address] and go-ethereum's [common]) are
    used through this interface; a parse error is [None]. *)
Class AddressLib := {
  Address : Type;
  FromString : string -> option Address;
  IsHexAddress : string -> bool;
  FromHex : string -> option Address;
  Equal : Address -> Address -> bool
}.

(** The slice expression [v[:n]] of a string: a run-time panic when [n]
    exceeds the length. *)
Definition sliceTo (v : string) (n : nat) : outcome string :=
  if (n <=? String.length v)%nat then Return (substring 0 n v)
  else Panic "runtime error: slice bounds out of range".

Fixpoint whitelistLoop `{AddressLib} (deployer : Address) (l : list string)
  : outcome bool :=
  match l with
  | [] => Return false
  | v :: rest =>
      match sliceTo v 3 with
      | Panic msg => Panic msg
      | Return prefix =>
          if String.eqb prefix "io1" then
            match FromString v with
            | Some addr =>
                if Equal deployer addr then Return true
                else whitelistLoop deployer rest
            | None => whitelistLoop deployer rest
            end
          else if IsHexAddress v then
            match FromHex v with
            | Some addr =>
                if Equal deployer addr then Return true
                else whitelistLoop deployer rest
            | None => whitelistLoop deployer rest
            end
          else whitelistLoop deployer rest
      end
  end.

Definition IsDeployerWhitelisted `{AddressLib} (a : Account) (deployer : Address)
  : outcome bool :=
  whitelistLoop deployer (ReplayDeployerWhitelist a).

(** An entry matches the deployer when the branch chosen by its prefix
    parses it to an equal address. *)
Definition entryMatches `{AddressLib} (deployer : Address) (v : string) : bool :=
  if String.eqb (substring 0 3 v) "io1" then
    match FromString v with Some addr => Equal deployer addr | None => false end
  else if IsHexAddress v then
    match FromHex v with Some addr => Equal deployer addr | None => false end
  else false.

(** ** The commitment *)

(** The protobuf messages of [iotex-proto] that [Hash] fills in. *)
Module iotextypes.
Record GenesisBlockchain := {
  Timestamp : Z;
  BlockGasLimit : Z;
  ActionGasLimit : Z;
  BlockInterval : Z;
  NumSubEpochs : Z;
  NumDelegates : Z;
  NumCandidateDelegates : Z;
  TimeBasedRotation : bool
}.
Record GenesisAccount := {
  InitBalanceAddrs : list string;
  InitBalances : list string
}.
Record GenesisDelegate := {
  OperatorAddr : string;
  RewardAddr : string;
  Votes : string
}.
Record GenesisPoll := {
  EnableGravityChainVoting : bool;
  GravityChainStartHeight : Z;
  RegisterContractAddress : string;
  StakingContractAddress : string;
  VoteThreshold : string;
  ScoreThreshold : string;
  SelfStakingThreshold : string;
  Delegates : list GenesisDelegate
}.
Record GenesisRewarding := {
  InitBalance : string;
  BlockReward : string;
  EpochReward : string;
  NumDelegatesForEpochReward : Z;
  FoundationBonus : string;
  NumDelegatesForFoundationBonus : Z;
  FoundationBonusLastEpoch : Z;
  ProductivityThreshold : Z
}.
Record Genesis := {
  Blockchain : GenesisBlockchain;
  Account : GenesisAccount;
  Poll : GenesisPoll;
  Rewarding : GenesisRewarding
}.
End iotextypes.

(** [hash.Hash256] is [[32]byte]. *)
Definition Hash256 : Type := vec Byte.byte 32.

Global Instance byte_eq_dec : EqDecision Byte.byte := Byte.byte_eq_dec.

(** [proto.Marshal] (bytes or an error) and [hash.Hash256b]. *)
Class ProtoLib := {
  Marshal : iotextypes.Genesis -> list Byte.byte + string;
  Hash256b : list Byte.byte -> Hash256
}.

(** [sort.Strings]: ascending in Go's byte-wise string order. *)
Definition sortStrings (l : list string) : list string :=
  merge_sort String.le l.

(** The orders in which [range m] may yield the keys of a map: Go leaves the
    order unspecified, each key comes once. *)
Definition rangeOrder (m : gmap string string) (order : list string) : Prop :=
  order ≡ₚ (map_to_list m).*1.

(** [m[k]], the zero value for an absent key. *)
Definition mapIndex (m : gmap string string) (k : string) : string :=
  default EmptyString (m !! k).

Definition delegateProto (d : Delegate) : iotextypes.GenesisDelegate := {|
  iotextypes.OperatorAddr := OperatorAddrStr d;
  iotextypes.RewardAddr := RewardAddrStr d;
  iotextypes.Votes := VotesStr d
|}.

(** The message [gProto] that [Hash] marshals; [order] is the order in which
    the [range] over [InitBalanceMap] yields the keys. *)
Definition genesisProto (order : list string) (g : Genesis) : iotextypes.Genesis :=
  let gbProto := {|
    iotextypes.Timestamp := Timestamp (gBlockchain g);
    iotextypes.BlockGasLimit := BlockGasLimit (gBlockchain g);
    iotextypes.ActionGasLimit := ActionGasLimit (gBlockchain g);
    iotextypes.BlockInterval := Nanoseconds (BlockInterval (gBlockchain g));
    iotextypes.NumSubEpochs := NumSubEpochs (gBlockchain g);
    iotextypes.NumDelegates := NumDelegates (gBlockchain g);
    iotextypes.NumCandidateDelegates := NumCandidateDelegates (gBlockchain g);
    iotextypes.TimeBasedRotation := TimeBasedRotation (gBlockchain g)
  |} in
  let initBalanceAddrs := sortStrings order in
  let initBalances := mapIndex (InitBalanceMap (gAccount g)) <$> initBalanceAddrs in
  let aProto := {|
    iotextypes.InitBalanceAddrs := initBalanceAddrs;
    iotextypes.InitBalances := initBalances
  |} in
  let dProtos := delegateProto <$> Delegates (gPoll g) in
  let pProto := {|
    iotextypes.EnableGravityChainVoting := EnableGravityChainVoting (gPoll g);
    iotextypes.GravityChainStartHeight := GravityChainStartHeight (gPoll g);
    iotextypes.RegisterContractAddress := RegisterContractAddress (gPoll g);
    iotextypes.StakingContractAddress := StakingContractAddress (gPoll g);
    iotextypes.VoteThreshold := VoteThreshold (gPoll g);
    iotextypes.ScoreThreshold := ScoreThreshold (gPoll g);
    iotextypes.SelfStakingThreshold := SelfStakingThreshold (gPoll g);
    iotextypes.Delegates := dProtos
  |} in
  let rProto := {|
    iotextypes.InitBalance := InitBalanceStr (gRewarding g);
    iotextypes.BlockReward := BlockRewardStr (gRewarding g);
    iotextypes.EpochReward := EpochRewardStr (gRewarding g);
    iotextypes.NumDelegatesForEpochReward :=
      NumDelegatesForEpochReward (gRewarding g);
    iotextypes.FoundationBonus := FoundationBonusStr (gRewarding g);
    iotextypes.NumDelegatesForFoundationBonus :=
      NumDelegatesForFoundationBonus (gRewarding g);
    iotextypes.FoundationBonusLastEpoch := FoundationBonusLastEpoch (gRewarding g);
    iotextypes.ProductivityThreshold := ProductivityThreshold (gRewarding g)
  |} in
  {| iotextypes.Blockchain := gbProto;
     iotextypes.Account := aProto;
     iotextypes.Poll := pProto;
     iotextypes.Rewarding := rProto |}.

Definition Hash `{ProtoLib} (order : list string) (g : Genesis) : outcome Hash256 :=
  match Marshal (genesisProto order g) with
  | inl b => Return (Hash256b b)
  | inr _ => Panic "Error when marshaling genesis proto"
  end.

(** The fields of the parameter set that [Hash] reads. *)
Inductive CommittedField :=
  | cTimestamp | cBlockGasLimit | cActionGasLimit | cBlockInterval
  | cNumSubEpochs | cNumDelegates | cNumCandidateDelegates
  | cTimeBasedRotation
  | cInitBalanceMap
  | cDelegates
  | cEnableGravityChainVoting | cGravityChainStartHeight
  | cRegisterContractAddress | cStakingContractAddress
  | cVoteThreshold | cScoreThreshold | cSelfStakingThreshold
  | cInitBalanceStr | cBlockRewardStr | cEpochRewardStr
  | cNumDelegatesForEpochReward | cFoundationBonusStr
  | cNumDelegatesForFoundationBonus | cFoundationBonusLastEpoch
  | cProductivityThreshold.

Definition agreeOn (f : CommittedField) (g1 g2 : Genesis) : Prop :=
  let via {A B} (part : Genesis -> A) (field : A -> B) :=
    field (part g1) = field (part g2) in
  match f with
  | cTimestamp => via gBlockchain Timestamp
  | cBlockGasLimit => via gBlockchain BlockGasLimit
  | cActionGasLimit => via gBlockchain ActionGasLimit
  | cBlockInterval => via gBlockchain BlockInterval
  | cNumSubEpochs => via gBlockchain NumSubEpochs
  | cNumDelegates => via gBlockchain NumDelegates
  | cNumCandidateDelegates => via gBlockchain NumCandidateDelegates
  | cTimeBasedRotation => via gBlockchain TimeBasedRotation
  | cInitBalanceMap => via gAccount InitBalanceMap
  | cDelegates => via gPoll Delegates
  | cEnableGravityChainVoting => via gPoll EnableGravityChainVoting
  | cGravityChainStartHeight => via gPoll GravityChainStartHeight
  | cRegisterContractAddress => via gPoll RegisterContractAddress
  | cStakingContractAddress => via gPoll StakingContractAddress
  | cVoteThreshold => via gPoll VoteThreshold
  | cScoreThreshold => via gPoll ScoreThreshold
  | cSelfStakingThreshold => via gPoll SelfStakingThreshold
  | cInitBalanceStr => via gRewarding InitBalanceStr
  | cBlockRewardStr => via gRewarding BlockRewardStr
  | cEpochRewardStr => via gRewarding EpochRewardStr
  | cNumDelegatesForEpochReward => via gRewarding NumDelegatesForEpochReward
  | cFoundationBonusStr => via gRewarding FoundationBonusStr
  | cNumDelegatesForFoundationBonus =>
      via gRewarding NumDelegatesForFoundationBonus
  | cFoundationBonusLastEpoch => via gRewarding FoundationBonusLastEpoch
  | cProductivityThreshold => via gRewarding ProductivityThreshold
  end.

Definition committedAgree (g1 g2 : Genesis) : Prop :=
  forall f, agreeOn f g1 g2.

Definition differInExactly (f : CommittedField) (g1 g2 : Genesis) : Prop :=
  ~ agreeOn f g1 g2 /\ forall f', f' <> f -> agreeOn f' g1 g2.

(** Two calls of [Hash] returned, and returned different values. *)
Definition commitmentsDiffer (r1 r2 : outcome Hash256) : Prop :=
  exists h1 h2, r1 = Return h1 /\ r2 = Return h2 /\ h1 <> h2.

(** [b] with every fork-activation height replaced by [H]. *)
Definition setForkHeights (b : Blockchain) (H : Fork -> Z) : Blockchain := {|
  Timestamp := Timestamp b;
  BlockGasLimit := BlockGasLimit b;
  TsunamiBlockGasLimit := TsunamiBlockGasLimit b;
  WakeBlockGasLimit := WakeBlockGasLimit b;
  ActionGasLimit := ActionGasLimit b;
  BlockInterval := BlockInterval b;
  NumSubEpochs := NumSubEpochs b;
  DardanellesNumSubEpochs := DardanellesNumSubEpochs b;
  WakeNumSubEpochs := WakeNumSubEpochs b;
  NumDelegates := NumDelegates b;
  NumCandidateDelegates := NumCandidateDelegates b;
  TimeBasedRotation := TimeBasedRotation b;
  MinBlocksForBlobRetention := MinBlocksForBlobRetention b;
  PacificBlockHeight := H Pacific;
  AleutianBlockHeight := H Aleutian;
  BeringBlockHeight := H Bering;
  CookBlockHeight := H Cook;
  DardanellesBlockHeight := H Dardanelles;
  DaytonaBlockHeight := H Daytona;
  EasterBlockHeight := H Easter;
  FbkMigrationBlockHeight := H FbkMigration;
  FairbankBlockHeight := H Fairbank;
  GreenlandBlockHeight := H Greenland;
  HawaiiBlockHeight := H Hawaii;
  IcelandBlockHeight := H Iceland;
  JutlandBlockHeight := H Jutland;
  KamchatkaBlockHeight := H Kamchatka;
  LordHoweBlockHeight := H LordHowe;
  MidwayBlockHeight := H Midway;
  NewfoundlandBlockHeight := H Newfoundland;
  OkhotskBlockHeight := H Okhotsk;
  PalauBlockHeight := H Palau;
  QuebecBlockHeight := H Quebec;
  RedseaBlockHeight := H Redsea;
  SumatraBlockHeight := H Sumatra;
  TsunamiBlockHeight := H Tsunami;
  UpernavikBlockHeight := H Upernavik;
  VanuatuBlockHeight := H Vanuatu;
  WakeBlockHeight := H Wake;
  ToBeEnabledBlockHeight := H ToBeEnabled
|}.

(** [g] with the fork heights, the staking sub-record and the deployer
    allowlist replaced. *)
Definition withUncommitted (g : Genesis) (H : Fork -> Z) (st : Staking)
    (wl : list string) : Genesis := {|
  gBlockchain := setForkHeights (gBlockchain g) H;
  gAccount := {| InitBalanceMap := InitBalanceMap (gAccount g);
                 ReplayDeployerWhitelist := wl |};
  gPoll := gPoll g;
  gRewarding := gRewarding g;
  gStaking := st
|}.

Definition withInitBalanceMap (g : Genesis) (m : gmap string string) : Genesis := {|
  gBlockchain := gBlockchain g;
  gAccount := {| InitBalanceMap := m;
                 ReplayDeployerWhitelist := ReplayDeployerWhitelist (gAccount g) |};
  gPoll := gPoll g;
  gRewarding := gRewarding g;
  gStaking := gStaking g
|}.

(** ** Loading *)

(** An override document, and the keys the [yaml] tags of the parameter
    record recognise. *)
#[warnings="-register-all"]
Inductive Yaml :=
  | YScalar (s : string)
  | YSeq (items : list Yaml)
  | YMap (entries : list (string * Yaml)).

#[warnings="-register-all"]
Inductive Shape :=
  | Leaf
  | Seq (elem : Shape)
  | Dict (value : Shape)
  | Struct (fields : list (string * Shape)).

Definition voteWeightCalConstsShape : Shape :=
  Struct [
    ("durationLg", Leaf); ("autoStake", Leaf); ("selfStake", Leaf)
  ].

Definition registrationConstsShape : Shape :=
  Struct [
    ("fee", Leaf); ("minSelfStake", Leaf)
  ].

Definition bootstrapCandidateShape : Shape :=
  Struct [
    ("ownerAddress", Leaf); ("operatorAddress", Leaf); ("rewardAddress",
    Leaf); ("name", Leaf); ("selfStakingTokens", Leaf)
  ].

Definition delegateShape : Shape :=
  Struct [
    ("operatorAddr", Leaf); ("rewardAddr", Leaf); ("votes", Leaf)
  ].

Definition blockchainShape : Shape :=
  Struct [
    ("timestamp", Leaf); ("blockGasLimit", Leaf); ("tsunamiBlockGasLimit",
    Leaf); ("wakeBlockGasLimit", Leaf); ("actionGasLimit", Leaf);
    ("blockInterval", Leaf); ("numSubEpochs", Leaf);
    ("dardanellesNumSubEpochs", Leaf); ("wakeNumSubEpochs", Leaf);
    ("numDelegates", Leaf); ("numCandidateDelegates", Leaf);
    ("timeBasedRotation", Leaf); ("minBlocksForBlobRetention", Leaf);
    ("pacificHeight", Leaf); ("aleutianHeight", Leaf); ("beringHeight",
    Leaf); ("cookHeight", Leaf); ("dardanellesHeight", Leaf);
    ("daytonaBlockHeight", Leaf); ("easterHeight", Leaf);
    ("fbkMigrationHeight", Leaf); ("fairbankHeight", Leaf);
    ("greenlandHeight", Leaf); ("hawaiiHeight", Leaf); ("icelandHeight",
    Leaf); ("jutlandHeight", Leaf); ("kamchatkaHeight", Leaf);
    ("lordHoweHeight", Leaf); ("midwayHeight", Leaf);
    ("newfoundlandHeight", Leaf); ("okhotskHeight", Leaf); ("palauHeight",
    Leaf); ("quebecHeight", Leaf); ("redseaHeight", Leaf);
    ("sumatraHeight", Leaf); ("tsunamiHeight", Leaf); ("upernavikHeight",
    Leaf); ("vanuatuHeight", Leaf); ("wakeHeight", Leaf);
    ("toBeEnabledHeight", Leaf)
  ].

Definition accountShape : Shape :=
  Struct [
    ("initBalances", Dict Leaf); ("replayDeployerWhitelist", Seq Leaf)
  ].

Definition pollShape : Shape :=
  Struct [
    ("pollMode", Leaf); ("enableGravityChainVoting", Leaf);
    ("gravityChainStartHeight", Leaf); ("gravityChainCeilingHeight",
    Leaf); ("gravityChainHeightInterval", Leaf);
    ("registerContractAddress", Leaf); ("stakingContractAddress", Leaf);
    ("nativeStakingContractAddress", Leaf); ("nativeStakingContractCode",
    Leaf); ("consortiumCommitteeContractCode", Leaf); ("voteThreshold",
    Leaf); ("scoreThreshold", Leaf); ("selfStakingThreshold", Leaf);
    ("delegates", Seq delegateShape); ("probationEpochPeriod", Leaf);
    ("probationIntensityRate", Leaf); ("unproductiveDelegateMaxCacheSize",
    Leaf); ("systemStakingContractAddress", Leaf);
    ("systemStakingContractHeight", Leaf); ("systemSGDContractAddress",
    Leaf); ("systemSGDContractHeight", Leaf);
    ("systemStakingContractV2Address", Leaf);
    ("systemStakingContractV2Height", Leaf);
    ("systemStakingContractV3Address", Leaf);
    ("systemStakingContractV3Height", Leaf)
  ].

Definition rewardingShape : Shape :=
  Struct [
    ("initBalance", Leaf); ("blockReward", Leaf);
    ("dardanellesBlockReward", Leaf); ("epochReward", Leaf);
    ("aleutianEpochReward", Leaf); ("numDelegatesForEpochReward", Leaf);
    ("exemptAddrsFromEpochReward", Seq Leaf); ("foundationBonus", Leaf);
    ("numDelegatesForFoundationBonus", Leaf); ("foundationBonusLastEpoch",
    Leaf); ("foundationBonusP2StartEpoch", Leaf);
    ("foundationBonusP2EndEpoch", Leaf); ("productivityThreshold", Leaf);
    ("wakeBlockRewardStr", Leaf)
  ].

Definition stakingShape : Shape :=
  Struct [
    ("voteWeightCalConsts", voteWeightCalConstsShape);
    ("registrationConsts", registrationConstsShape);
    ("withdrawWaitingPeriod", Leaf); ("minStakeAmount", Leaf);
    ("bootstrapCandidates", Seq bootstrapCandidateShape);
    ("endorsementWithdrawWaitingBlocks", Leaf)
  ].

Definition genesisShape : Shape :=
  Struct [
    ("blockchain", blockchainShape); ("account", accountShape); ("poll",
    pollShape); ("rewarding", rewardingShape); ("staking", stakingShape)
  ].

Fixpoint fieldShape (k : string) (fields : list (string * Shape)) : option Shape :=
  match fields with
  | [] => None
  | (k', sh) :: rest => if String.eqb k k' then Some sh else fieldShape k rest
  end.

(** Some mapping of the document has a key that the record at that place
    does not have. *)
Fixpoint hasUnknownKey (sh : Shape) (y : Yaml) {struct y} : bool :=
  match y with
  | YScalar _ => false
  | YSeq items =>
      match sh with
      | Seq e => existsb (hasUnknownKey e) items
      | _ => false
      end
  | YMap entries =>
      match sh with
      | Struct fields =>
          existsb (fun kv =>
            match fieldShape (fst kv) fields with
            | None => true
            | Some sh' => hasUnknownKey sh' (snd kv)
            end) entries
      | Dict sh' => existsb (fun kv => hasUnknownKey sh' (snd kv)) entries
      | _ => false
      end
  end.

(** The documents that the files of the node hold. *)
Definition FileSystem := string -> option Yaml.

(** [go.uber.org/config] as [New] uses it: the options, the constructor,
    and [Get(Root).Populate] into a zero-valued [Genesis]. *)
Inductive YAMLOption :=
  | Static (val : Genesis)
  | File (name : string)
  | Permissive.

Class ConfigLib := {
  Provider : Type;
  NewYAML : FileSystem -> list YAMLOption -> Provider + string;
  Populate : Provider -> Genesis + string
}.

(** The library's strict mode, its default: unless [Permissive] is among
    the options, a key of a source file that the target record lacks makes
    the constructor or [Populate] fail. *)
Definition strictByDefault `{ConfigLib} : Prop :=
  forall (fs : FileSystem) opts name doc,
    Permissive ∉ opts -> File name ∈ opts -> fs name = Some doc ->
    hasUnknownKey genesisShape doc = true ->
    match NewYAML fs opts with
    | inr _ => True
    | inl p => exists err, Populate p = inr err
    end.

(** [errors.Wrap]. *)
Definition Wrap (err msg : string) : string := msg +:+ ": " +:+ err.

Section Loading.
Variable ConvertIotxToRau : Z -> Z.
Variable BigInt_String : Z -> string.
Context `{ConfigLib}.

Definition New (fs : FileSystem) (genesisPath : string) : Genesis * option string :=
  let def := defaultConfig ConvertIotxToRau BigInt_String in
  let opts := [Static def] in
  let opts :=
    if String.eqb genesisPath EmptyString then opts else (opts ++ [File genesisPath])%list in
  match NewYAML fs opts with
  | inr err =>
      (zeroGenesis, Some (Wrap err "error when constructing a genesis in yaml"))
  | inl yaml =>
      match Populate yaml with
      | inr err =>
          (zeroGenesis,
           Some (Wrap err "failed to unmarshal yaml genesis to struct"))
      | inl genesis =>
          if bool_decide (size (InitBalanceMap (gAccount genesis)) = 0%nat)
          then (withInitBalanceMap genesis defaultInitBalanceMap, None)
          else (genesis, None)
      end
  end.
End Loading.

(** ** Small instances of the library interfaces, for the examples *)

(** A serializer that never fails and a digest that is constant. *)
Definition constantProtoLib : ProtoLib := {|
  Marshal := fun _ => inl [];
  Hash256b := fun _ => vreplicate 32 Byte.x00
|}.

(** Addresses as their text; hex entries start with [0x]. *)
Definition textAddressLib : AddressLib := {|
  Address := string;
  FromString := fun s => Some s;
  IsHexAddress := fun s => String.prefix "0x" s;
  FromHex := fun s => Some s;
  Equal := String.eqb
|}.

(** A strict loader: it keeps the static value and the documents of the
    named files, and refuses to populate from a document with an unknown
    key unless made permissive; of the overrides it applies none. *)
Definition isPermissive (o : YAMLOption) : bool :=
  match o with Permissive => true | _ => false end.

Definition optionFile (fs : FileSystem) (o : YAMLOption) : option Yaml :=
  match o with File name => fs name | _ => None end.

Definition optionStatic (o : YAMLOption) : option Genesis :=
  match o with Static val => Some val | _ => None end.

Definition strictConfigLib : ConfigLib := {|
  Provider := bool * list Yaml * Genesis;
  NewYAML := fun fs opts =>
    inl (negb (existsb isPermissive opts), omap (optionFile fs) opts,
         default zeroGenesis (head (omap optionStatic opts)));
  Populate := fun p =>
    let '(strict, docs, base) := p in
    if strict && existsb (hasUnknownKey genesisShape) docs
    then inr "field not found in type genesis.Genesis"
    else inl base
|}.

(** The value of a call that returned. *)
Definition returned {A} (r : outcome A) : option A :=
  match r with Return a => Some a | Panic _ => None end.

(** [f] sends the distinct inputs [x] and [y] to one output. *)
Definition collision {A B} (f : A -> B) (x y : A) : Prop :=
  x <> y /\ f x = f y.

(** ** Parameter sets for the examples *)

(** The zero parameter set with the rewarding fund's initial balance [s]. *)
Definition initBalanceStrVariant (s : string) : Genesis := {|
  gBlockchain := gBlockchain zeroGenesis;
  gAccount := gAccount zeroGenesis;
  gPoll := gPoll zeroGenesis;
  gRewarding :=
    mkRewarding s EmptyString EmptyString EmptyString EmptyString 0 []
      EmptyString 0 0 0 0 0 EmptyString;
  gStaking := gStaking zeroGenesis
|}.

(** The zero parameter set with the poll's [GravityChainCeilingHeight] [h]. *)
Definition ceilingHeightVariant (h : Z) : Genesis := {|
  gBlockchain := gBlockchain zeroGenesis;
  gAccount := gAccount zeroGenesis;
  gPoll :=
    mkPoll EmptyString false 0 h 0 EmptyString EmptyString EmptyString
      EmptyString EmptyString EmptyString EmptyString EmptyString [] 0 0 0
      EmptyString 0 EmptyString 0 EmptyString 0 EmptyString 0;
  gRewarding := gRewarding zeroGenesis;
  gStaking := gStaking zeroGenesis
|}.

(** Two ways to fill one balance table, by assignments in different orders. *)
Definition balancesAB : gmap string string :=
  <["b" := "2"]> (<["a" := "1"]> ∅).
Definition balancesBA : gmap string string :=
  <["a" := "1"]> (<["b" := "2"]> ∅).


(** A node whose only file, [genesis.yaml], sets a key that the blockchain
    record does not have. *)
Definition bogusOverride : Yaml :=
  YMap [("blockchain", YMap [("blockGasLimit", YScalar "30000000");
                             ("bogusHeight", YScalar "5")])].

Definition bogusFiles : FileSystem := fun name =>
  if String.eqb name "genesis.yaml" then Some bogusOverride else None.

(** ** Materialized addresses and the initial balances *)

(** [InitBalances]: the addresses with an initial balance and the amounts,
    the i-th amount being the i-th address' balance; [order] is the order
    in which the [range] over [InitBalanceMap] yields the keys. *)
Fixpoint initBalancesLoop `{AddressLib} (m : gmap string string)
    (addrStrs : list string) (addrs : list Address) (amounts : list Z)
  : outcome (list Address * list Z) :=
  match addrStrs with
  | [] => Return (addrs, amounts)
  | addrStr :: rest =>
      match FromString addrStr with
      | None =>
          Panic "Error when decoding the account protocol init balance address from string."
      | Some addr =>
          match SetString10 (mapIndex m addrStr) with
          | None =>
              Panic ("Error when casting init balance string "
                     +:+ mapIndex m addrStr +:+ " into big int")
          | Some amount =>
              initBalancesLoop m rest (addrs ++ [addr]) (amounts ++ [amount])
          end
      end
  end.

Definition InitBalances `{AddressLib} (order : list string) (a : Account)
  : outcome (list Address * list Z) :=
  initBalancesLoop (InitBalanceMap a) (sortStrings order) [] [].

Definition OperatorAddr `{AddressLib} (d : Delegate) : outcome Address :=
  match FromString (OperatorAddrStr d) with
  | Some addr => Return addr
  | None =>
      Panic "Error when decoding the poll protocol operator address from string."
  end.

(** The rewardee may be absent: Go's [nil] is [None]. *)
Definition RewardAddr `{AddressLib} (d : Delegate) : outcome (option Address) :=
  if String.eqb (RewardAddrStr d) EmptyString then Return None
  else
    match FromString (RewardAddrStr d) with
    | Some addr => Return (Some addr)
    | None =>
        Panic "Error when decoding the poll protocol rewardee address from string."
    end.

Fixpoint exemptAddrsLoop `{AddressLib} (addrStrs : list string)
    (addrs : list Address) : outcome (list Address) :=
  match addrStrs with
  | [] => Return addrs
  | addrStr :: rest =>
      match FromString addrStr with
      | None =>
          Panic "Error when decoding the rewarding protocol exempt address from string."
      | Some addr => exemptAddrsLoop rest (addrs ++ [addr])
      end
  end.

Definition ExemptAddrsFromEpochReward `{AddressLib} (r : Rewarding)
  : outcome (list Address) :=
  exemptAddrsLoop (ExemptAddrStrsFromEpochReward r) [].

(** ** The test defaults *)

(** The four assignments of [TestDefault] to blockchain fields. *)
Definition testDefaultBlockchain (b : Blockchain) : Blockchain := {|
  Timestamp := 1546329600;
  BlockGasLimit := BlockGasLimit b;
  TsunamiBlockGasLimit := TsunamiBlockGasLimit b;
  WakeBlockGasLimit := WakeBlockGasLimit b;
  ActionGasLimit := ActionGasLimit b;
  BlockInterval := BlockInterval b;
  NumSubEpochs := 2;
  DardanellesNumSubEpochs := DardanellesNumSubEpochs b;
  WakeNumSubEpochs := WakeNumSubEpochs b;
  NumDelegates := NumDelegates b;
  NumCandidateDelegates := NumCandidateDelegates b;
  TimeBasedRotation := false;
  MinBlocksForBlobRetention := MinBlocksForBlobRetention b;
  PacificBlockHeight := 0;
  AleutianBlockHeight := AleutianBlockHeight b;
  BeringBlockHeight := BeringBlockHeight b;
  CookBlockHeight := CookBlockHeight b;
  DardanellesBlockHeight := DardanellesBlockHeight b;
  DaytonaBlockHeight := DaytonaBlockHeight b;
  EasterBlockHeight := EasterBlockHeight b;
  FbkMigrationBlockHeight := FbkMigrationBlockHeight b;
  FairbankBlockHeight := FairbankBlockHeight b;
  GreenlandBlockHeight := GreenlandBlockHeight b;
  HawaiiBlockHeight := HawaiiBlockHeight b;
  IcelandBlockHeight := IcelandBlockHeight b;
  JutlandBlockHeight := JutlandBlockHeight b;
  KamchatkaBlockHeight := KamchatkaBlockHeight b;
  LordHoweBlockHeight := LordHoweBlockHeight b;
  MidwayBlockHeight := MidwayBlockHeight b;
  NewfoundlandBlockHeight := NewfoundlandBlockHeight b;
  OkhotskBlockHeight := OkhotskBlockHeight b;
  PalauBlockHeight := PalauBlockHeight b;
  QuebecBlockHeight := QuebecBlockHeight b;
  RedseaBlockHeight := RedseaBlockHeight b;
  SumatraBlockHeight := SumatraBlockHeight b;
  TsunamiBlockHeight := TsunamiBlockHeight b;
  UpernavikBlockHeight := UpernavikBlockHeight b;
  VanuatuBlockHeight := VanuatuBlockHeight b;
  WakeBlockHeight := WakeBlockHeight b;
  ToBeEnabledBlockHeight := ToBeEnabledBlockHeight b
|}.

Definition setEnableGravityChainVoting (p : Poll) (v : bool) : Poll := {|
  PollMode := PollMode p;
  EnableGravityChainVoting := v;
  GravityChainStartHeight := GravityChainStartHeight p;
  GravityChainCeilingHeight := GravityChainCeilingHeight p;
  GravityChainHeightInterval := GravityChainHeightInterval p;
  RegisterContractAddress := RegisterContractAddress p;
  StakingContractAddress := StakingContractAddress p;
  NativeStakingContractAddress := NativeStakingContractAddress p;
  NativeStakingContractCode := NativeStakingContractCode p;
  ConsortiumCommitteeContractCode := ConsortiumCommitteeContractCode p;
  VoteThreshold := VoteThreshold p;
  ScoreThreshold := ScoreThreshold p;
  SelfStakingThreshold := SelfStakingThreshold p;
  Delegates := Delegates p;
  ProbationEpochPeriod := ProbationEpochPeriod p;
  ProbationIntensityRate := ProbationIntensityRate p;
  UnproductiveDelegateMaxCacheSize := UnproductiveDelegateMaxCacheSize p;
  SystemStakingContractAddress := SystemStakingContractAddress p;
  SystemStakingContractHeight := SystemStakingContractHeight p;
  SystemSGDContractAddress := SystemSGDContractAddress p;
  SystemSGDContractHeight := SystemSGDContractHeight p;
  SystemStakingContractV2Address := SystemStakingContractV2Address p;
  SystemStakingContractV2Height := SystemStakingContractV2Height p;
  SystemStakingContractV3Address := SystemStakingContractV3Address p;
  SystemStakingContractV3Height := SystemStakingContractV3Height p
|}.

Definition setDelegates (p : Poll) (ds : list Delegate) : Poll := {|
  PollMode := PollMode p;
  EnableGravityChainVoting := EnableGravityChainVoting p;
  GravityChainStartHeight := GravityChainStartHeight p;
  GravityChainCeilingHeight := GravityChainCeilingHeight p;
  GravityChainHeightInterval := GravityChainHeightInterval p;
  RegisterContractAddress := RegisterContractAddress p;
  StakingContractAddress := StakingContractAddress p;
  NativeStakingContractAddress := NativeStakingContractAddress p;
  NativeStakingContractCode := NativeStakingContractCode p;
  ConsortiumCommitteeContractCode := ConsortiumCommitteeContractCode p;
  VoteThreshold := VoteThreshold p;
  ScoreThreshold := ScoreThreshold p;
  SelfStakingThreshold := SelfStakingThreshold p;
  Delegates := ds;
  ProbationEpochPeriod := ProbationEpochPeriod p;
  ProbationIntensityRate := ProbationIntensityRate p;
  UnproductiveDelegateMaxCacheSize := UnproductiveDelegateMaxCacheSize p;
  SystemStakingContractAddress := SystemStakingContractAddress p;
  SystemStakingContractHeight := SystemStakingContractHeight p;
  SystemSGDContractAddress := SystemSGDContractAddress p;
  SystemSGDContractHeight := SystemSGDContractHeight p;
  SystemStakingContractV2Address := SystemStakingContractV2Address p;
  SystemStakingContractV2Height := SystemStakingContractV2Height p;
  SystemStakingContractV3Address := SystemStakingContractV3Address p;
  SystemStakingContractV3Height := SystemStakingContractV3Height p
|}.

Definition withPoll (g : Genesis) (p : Poll) : Genesis := {|
  gBlockchain := gBlockchain g;
  gAccount := gAccount g;
  gPoll := p;
  gRewarding := gRewarding g;
  gStaking := gStaking g
|}.

Section TestDefaults.
(** [identityset.Size] and the text of [identityset.Address(i)] come from
    the repository's test identities, outside this package. *)
Variable ConvertIotxToRau : Z -> Z.
Variable BigInt_String : Z -> string.
Variable identitySize : Z.
Variable identityAddress : Z -> string.

(** The configuration before the loop. *)
Definition testDefaultInit : Genesis :=
  let cfg := defaultConfig ConvertIotxToRau BigInt_String in
  let cfg := withInitBalanceMap cfg ∅ in
  {| gBlockchain := testDefaultBlockchain (gBlockchain cfg);
     gAccount := gAccount cfg;
     gPoll := setEnableGravityChainVoting (gPoll cfg) false;
     gRewarding := gRewarding cfg;
     gStaking := gStaking cfg |}.

(** One round of the loop, for the identity [i]. *)
Definition testDefaultStep (cfg : Genesis) (i : Z) : Genesis :=
  let addr := identityAddress i in
  let value := BigInt_String (ConvertIotxToRau 100000000) in
  let cfg :=
    withInitBalanceMap cfg (<[addr := value]> (InitBalanceMap (gAccount cfg))) in
  if i <? NumDelegates (gBlockchain cfg) then
    withPoll cfg
      (setDelegates (gPoll cfg)
         (Delegates (gPoll cfg) ++ [mkDelegate addr addr value]))
  else cfg.

Definition TestDefault : Genesis :=
  foldl testDefaultStep testDefaultInit
    (Z.of_nat <$> seq 0 (Z.to_nat identitySize)).
End TestDefaults.

(** The identities [0 .. n-1] that the loop of [TestDefault] visits, and
    the delegate it appends for one of them. *)
Definition identityRange (n : nat) : list Z := Z.of_nat <$> seq 0 n.

Definition testDelegate (identityAddress : Z -> string) (value : string) (i : Z)
  : Delegate :=
  mkDelegate (identityAddress i) (identityAddress i) value.

(** The entries that the allowlist loop has looked at when it goes on to
    the next one: all long enough to be sliced, none matching. *)
Definition passedOver `{AddressLib} (deployer : Address) (pre : list string)
  : Prop :=
  Forall (fun w => (3 <= String.length w)%nat) pre /\
  existsb (entryMatches deployer) pre = false.

(** The first value that a sequence of calls sets, if it sets any. *)
Fixpoint firstSet (cs : list Pkg.call) : option Z :=
  match cs with
  | [] => None
  | Pkg.CallSet ts :: _ => Some ts
  | Pkg.CallRead :: cs' => firstSet cs'
  end.

(** Test identities [io1test0], [io1test1], ... *)
Definition testIdentity (i : Z) : string := "io1test" +:+ pretty i.

(** * Properties *)

(** ** Activation gates *)

Lemma isPost_spec (g : Blockchain) (targetHeight height : Z) :
  isPost g targetHeight height = true <-> targetHeight <= height.
Proof. unfold isPost. rewrite Z.geb_leb. apply Z.leb_le. Qed.

Lemma isPost_false (g : Blockchain) (targetHeight height : Z) :
  isPost g targetHeight height = false <-> height < targetHeight.
Proof. unfold isPost. rewrite Z.geb_leb. apply Z.leb_gt. Qed.

Lemma isActive_isPost (g : Blockchain) (F : Fork) (h : Z) :
  isActive g F h = isPost g (forkHeight g F) h.
Proof. destruct F; reflexivity. Qed.

(** C1: every fork predicate holds at a height exactly when the height has
    reached the fork's configured activation height (the activation block
    included), hence once active it stays active at every later height. *)
Theorem isActive_inclusive_monotone (g : Blockchain) (F : Fork) :
  (forall h, isActive g F h = true <-> forkHeight g F <= h) /\
  (forall h1 h2, h1 < h2 -> isActive g F h1 = true -> isActive g F h2 = true).
Proof.
  split.
  - intros h. rewrite isActive_isPost. apply isPost_spec.
  - intros h1 h2 Hlt. rewrite !isActive_isPost, !isPost_spec. lia.
Qed.

(** The mainnet defaults with one reading of the two outside conversions,
    as a concrete parameter set for the examples. *)
Lemma isActive_inclusive_monotone_witness :
  let g := gBlockchain (defaultConfig (Z.mul 1000000000000000000) pretty) in
  (isActive g Pacific 432001 = true <-> forkHeight g Pacific <= 432001) /\
  (432001 < 432002 -> isActive g Pacific 432001 = true ->
   isActive g Pacific 432002 = true).
Proof.
  intros g. split.
  - apply (proj1 (isActive_inclusive_monotone g Pacific) 432001).
  - apply (proj2 (isActive_inclusive_monotone g Pacific) 432001 432002).
Defined.

Lemma BlockGasLimitByHeight_cases (g : Blockchain) (height : Z) :
  (WakeBlockHeight g <= height ->
   BlockGasLimitByHeight g height = WakeBlockGasLimit g) /\
  (height < WakeBlockHeight g -> TsunamiBlockHeight g <= height ->
   BlockGasLimitByHeight g height = TsunamiBlockGasLimit g) /\
  (height < WakeBlockHeight g -> height < TsunamiBlockHeight g ->
   BlockGasLimitByHeight g height = BlockGasLimit g).
Proof.
  unfold BlockGasLimitByHeight.
  destruct (isPost g (WakeBlockHeight g) height) eqn:Ew;
    [apply isPost_spec in Ew | apply isPost_false in Ew];
    (destruct (isPost g (TsunamiBlockHeight g) height) eqn:Et;
      [apply isPost_spec in Et | apply isPost_false in Et]);
    repeat split; intros; (reflexivity || lia).
Qed.

Lemma gasTiers_elem (g : Blockchain) (h0 a l : Z) :
  (a, l) ∈ gasTiers g h0 ->
  a = h0 \/ a = TsunamiBlockHeight g \/ a = WakeBlockHeight g.
Proof.
  unfold gasTiers. rewrite !elem_of_cons, elem_of_nil.
  intros [E|[E|[E|[]]]]; inversion E; auto.
Qed.

(** C3: with the base limit 20000000 from h0, 50000000 from the Tsunami
    height h1 and 25000000 from the Wake height h2, h0 < h1 < h2, the block
    gas limit is 20000000 below h1, 50000000 from h1 up to h2 excluded and
    25000000 from h2 on; from h0 on it is the limit of the tier with the
    greatest activation height not exceeding the height. *)
Theorem BlockGasLimitByHeight_tiers (g : Blockchain) (h0 h1 h2 height : Z) :
  h0 < h1 -> h1 < h2 ->
  BlockGasLimit g = 20000000 ->
  TsunamiBlockHeight g = h1 -> TsunamiBlockGasLimit g = 50000000 ->
  WakeBlockHeight g = h2 -> WakeBlockGasLimit g = 25000000 ->
  (height < h1 -> BlockGasLimitByHeight g height = 20000000) /\
  (h1 <= height < h2 -> BlockGasLimitByHeight g height = 50000000) /\
  (h2 <= height -> BlockGasLimitByHeight g height = 25000000) /\
  (h0 <= height ->
   exists a, (a, BlockGasLimitByHeight g height) ∈ gasTiers g h0 /\
     a <= height /\
     forall a' l', (a', l') ∈ gasTiers g h0 -> a' <= height -> a' <= a).
Proof.
  intros H01 H12 Hb Ht Htl Hw Hwl. subst h1 h2.
  destruct (BlockGasLimitByHeight_cases g height) as (Cw & Ct & Cb).
  rewrite Hwl in Cw. rewrite Htl in Ct. rewrite Hb in Cb.
  split; [intros; apply Cb; lia|]. split; [intros; apply Ct; lia|].
  split; [exact Cw|]. intros H0.
  pose proof (gasTiers_elem g h0) as Hbound.
  unfold gasTiers at 1. rewrite Hb, Htl, Hwl.
  destruct (Z_lt_le_dec height (TsunamiBlockHeight g)) as [L1|G1];
    [|destruct (Z_lt_le_dec height (WakeBlockHeight g)) as [L2|G2]].
  - exists h0. rewrite Cb by lia. split; [set_solver|]. split; [lia|].
    intros a' l' Hin Ha'. destruct (Hbound a' l' Hin) as [->|[->| ->]]; lia.
  - exists (TsunamiBlockHeight g). rewrite Ct by lia.
    split; [set_solver|]. split; [lia|].
    intros a' l' Hin Ha'. destruct (Hbound a' l' Hin) as [->|[->| ->]]; lia.
  - exists (WakeBlockHeight g). rewrite Cw by lia.
    split; [set_solver|]. split; [lia|].
    intros a' l' Hin Ha'. destruct (Hbound a' l' Hin) as [->|[->| ->]]; lia.
Qed.

Lemma BlockGasLimitByHeight_tiers_witness :
  let g := gBlockchain (defaultConfig (Z.mul 1000000000000000000) pretty) in
  BlockGasLimitByHeight g 29275560 = 20000000 /\
  BlockGasLimitByHeight g 29275561 = 50000000 /\
  BlockGasLimitByHeight g 36893881 = 25000000.
Proof.
  intros g.
  pose proof (fun height =>
    BlockGasLimitByHeight_tiers g 0 29275561 36893881 height
      ltac:(lia) ltac:(lia) eq_refl eq_refl eq_refl eq_refl eq_refl) as T.
  split; [|split].
  - apply (T 29275560). lia.
  - apply (T 29275561). lia.
  - apply (T 36893881). lia.
Defined.

(** C10: under the defaults the staged gate is off at every height below
    the largest [uint64] and on at that largest height itself. *)
Theorem IsToBeEnabled_default (ConvertIotxToRau : Z -> Z)
    (BigInt_String : Z -> string) :
  let g := gBlockchain (defaultConfig ConvertIotxToRau BigInt_String) in
  ToBeEnabledBlockHeight g = 2 ^ 64 - 1 /\
  (forall h, 0 <= h < 2 ^ 64 - 1 -> IsToBeEnabled g h = false) /\
  IsToBeEnabled g (2 ^ 64 - 1) = true /\
  (forall h, uint64 h -> (IsToBeEnabled g h = true <-> h = 2 ^ 64 - 1)).
Proof.
  intros g.
  assert (Hmax : ToBeEnabledBlockHeight g = 2 ^ 64 - 1) by reflexivity.
  split; [exact Hmax|]. unfold IsToBeEnabled. rewrite Hmax.
  split; [|split].
  - intros h Hh. apply isPost_false. lia.
  - apply isPost_spec. lia.
  - intros h [Hlo Hhi]. rewrite isPost_spec.
    unfold MaxUint64 in Hhi. lia.
Qed.

Lemma IsToBeEnabled_default_witness :
  let g := gBlockchain (defaultConfig (Z.mul 1000000000000000000) pretty) in
  IsToBeEnabled g 18446744073709551614 = false /\
  IsToBeEnabled g 18446744073709551615 = true.
Proof.
  intros g.
  destruct (IsToBeEnabled_default (Z.mul 1000000000000000000) pretty)
    as (_ & Hoff & Hon & _).
  split.
  - apply Hoff. lia.
  - exact Hon.
Defined.

(** ** The set-once genesis timestamp *)

Lemma SetGenesisTimestamp_first (s : Pkg.vars) (ts : Z) :
  Pkg.loadGenesisTs s = false ->
  Pkg.SetGenesisTimestamp ts s = Pkg.mkVars ts true.
Proof.
  intros Hfresh. unfold Pkg.SetGenesisTimestamp, Pkg.Once_Do.
  rewrite Hfresh. reflexivity.
Qed.

Lemma SetGenesisTimestamp_again (s : Pkg.vars) (ts : Z) :
  Pkg.loadGenesisTs s = true -> Pkg.SetGenesisTimestamp ts s = s.
Proof.
  intros Hdone. unfold Pkg.SetGenesisTimestamp, Pkg.Once_Do.
  rewrite Hdone. reflexivity.
Qed.

Lemma run_after_set (cs : list Pkg.call) (s : Pkg.vars) :
  Pkg.loadGenesisTs s = true ->
  fst (Pkg.run cs s) = s /\
  Forall (fun r => r = Pkg.genesisTs s) (snd (Pkg.run cs s)).
Proof.
  intros Hdone. induction cs as [|[ts|] cs IH]; simpl.
  - split; [reflexivity | constructor].
  - rewrite SetGenesisTimestamp_again by exact Hdone. exact IH.
  - destruct (Pkg.run cs s) as [s' reads]. simpl in *.
    destruct IH as [IHs IHr]. split; [exact IHs|].
    constructor; [reflexivity | exact IHr].
Qed.

(** C8: once [SetGenesisTimestamp t1] has run on a fresh cell, any further
    [SetGenesisTimestamp t2] leaves the cell as it is, and every later
    [Timestamp] read, whatever calls come in between, returns [t1]. *)
Theorem SetGenesisTimestamp_set_once (s : Pkg.vars) (t1 : Z) :
  Pkg.loadGenesisTs s = false ->
  let s1 := Pkg.SetGenesisTimestamp t1 s in
  Pkg.Timestamp s1 = t1 /\
  (forall t2, Pkg.SetGenesisTimestamp t2 s1 = s1 /\
              Pkg.Timestamp (Pkg.SetGenesisTimestamp t2 s1) = t1) /\
  (forall cs, Pkg.Timestamp (fst (Pkg.run cs s1)) = t1 /\
              Forall (fun r => r = t1) (snd (Pkg.run cs s1))).
Proof.
  intros Hfresh s1. subst s1.
  rewrite (SetGenesisTimestamp_first s t1 Hfresh).
  split; [reflexivity|]. split.
  - intros t2. rewrite SetGenesisTimestamp_again by reflexivity.
    split; reflexivity.
  - intros cs.
    destruct (run_after_set cs (Pkg.mkVars t1 true) eq_refl) as [Hs Hr].
    rewrite Hs. split; [reflexivity | exact Hr].
Qed.

Lemma SetGenesisTimestamp_set_once_witness :
  Pkg.Timestamp
    (Pkg.SetGenesisTimestamp 1546329600
       (Pkg.SetGenesisTimestamp 1553558500 Pkg.init)) = 1553558500 /\
  snd (Pkg.run [Pkg.CallRead; Pkg.CallSet 1546329600; Pkg.CallRead]
         (Pkg.SetGenesisTimestamp 1553558500 Pkg.init))
  = [1553558500; 1553558500].
Proof.
  destruct (SetGenesisTimestamp_set_once Pkg.init 1553558500 eq_refl)
    as (_ & Hset & Hrun).
  split.
  - exact (proj2 (Hset 1546329600)).
  - reflexivity.
Defined.

(** ** Derived amounts *)

Lemma digit_cases (d : Z) :
  0 <= d <= 9 ->
  d = 0 \/ d = 1 \/ d = 2 \/ d = 3 \/ d = 4 \/ d = 5 \/ d = 6 \/ d = 7 \/
  d = 8 \/ d = 9.
Proof. lia. Qed.

(** Replaces a digit [d] by each of its ten values in turn. *)
Ltac each_digit d Hd :=
  destruct (digit_cases d Hd)
    as [->|[->|[->|[->|[->|[->|[->|[->|[->| ->]]]]]]]]].

Lemma digitValue_digitChar (d : Z) :
  0 <= d <= 9 -> digitValue (digitChar d) = Some d.
Proof. intros Hd. each_digit d Hd; reflexivity. Qed.

Lemma digitChar_not_sign (d : Z) :
  0 <= d <= 9 ->
  Ascii.eqb (digitChar d) "-" = false /\ Ascii.eqb (digitChar d) "+" = false.
Proof. intros Hd. each_digit d Hd; split; reflexivity. Qed.

Lemma digitValue_inv (c : ascii) (d : Z) :
  digitValue c = Some d -> 0 <= d <= 9 /\ c = digitChar d.
Proof.
  unfold digitValue, digitChar. intros Hc.
  destruct (48 <=? Z.of_N (N_of_ascii c)) eqn:Hlo; [|discriminate].
  destruct (Z.of_N (N_of_ascii c) <=? 57) eqn:Hhi; [|discriminate].
  simpl in Hc. injection Hc as <-.
  apply Z.leb_le in Hlo, Hhi. split; [lia|].
  replace (48 + (Z.of_N (N_of_ascii c) - 48)) with (Z.of_N (N_of_ascii c)) by lia.
  rewrite N2Z.id. symmetry. apply ascii_N_embedding.
Qed.

Lemma natScan_render (ds : list Z) (acc : Z) (count : nat) :
  Forall (fun d => 0 <= d <= 9) ds ->
  natScan acc count (renderDigits ds)
  = (acc * 10 ^ Z.of_nat (length ds) + digitsValue ds,
     (count + length ds)%nat, EmptyString).
Proof.
  intros Hds. revert acc count.
  induction Hds as [|d ds Hd Hds IH]; intros acc count;
    cbn [natScan renderDigits digitsValue length].
  - replace (acc * 10 ^ Z.of_nat 0 + 0) with acc by lia.
    replace (count + 0)%nat with count by lia. reflexivity.
  - rewrite digitValue_digitChar by exact Hd. rewrite IH.
    replace (S count + length ds)%nat with (count + S (length ds))%nat by lia.
    replace ((acc * 10 + d) * 10 ^ Z.of_nat (length ds) + digitsValue ds)
      with (acc * 10 ^ Z.of_nat (S (length ds))
            + (d * 10 ^ Z.of_nat (length ds) + digitsValue ds)); [reflexivity|].
    rewrite Nat2Z.inj_succ, Z.pow_succ_r by lia. lia.
Qed.

Lemma natScan_complete (s : string) (acc : Z) (count : nat) (v : Z)
    (count' : nat) :
  natScan acc count s = (v, count', EmptyString) ->
  exists ds, Forall (fun d => 0 <= d <= 9) ds /\ s = renderDigits ds /\
    v = acc * 10 ^ Z.of_nat (length ds) + digitsValue ds /\
    count' = (count + length ds)%nat.
Proof.
  revert acc count. induction s as [|c r IH]; intros acc count;
    cbn [natScan].
  - intros [= <- <-]. exists [].
    cbn [renderDigits digitsValue length].
    split; [constructor|]. split; [reflexivity|]. split; lia.
  - destruct (digitValue c) as [d|] eqn:Hc; [|discriminate].
    intros Hscan. destruct (IH _ _ Hscan) as (ds & Hds & -> & -> & ->).
    apply digitValue_inv in Hc as [Hd ->].
    exists (d :: ds). cbn [renderDigits digitsValue length].
    split; [constructor; assumption|]. split; [reflexivity|]. split.
    + rewrite Nat2Z.inj_succ, Z.pow_succ_r by lia. lia.
    + lia.
Qed.

Lemma SetString10_sound (s : string) (z : Z) :
  base10_denotes s z -> SetString10 s = Some z.
Proof.
  intros (sg & ds & Hne & Hds & -> & ->).
  destruct ds as [|d ds]; [congruence|].
  pose proof (natScan_render (d :: ds) 0 0 Hds) as Hscan.
  assert (Hd : 0 <= d <= 9) by (inversion Hds; assumption).
  destruct (digitChar_not_sign d Hd) as [Hminus Hplus].
  unfold SetString10.
  destruct sg; cbv beta iota delta [signText String.append signApply].
  - cbn [renderDigits scanSign] in *. rewrite Hminus, Hplus, Hscan.
    cbn [length Nat.add]. f_equal; lia.
  - cbn [scanSign]. change (Ascii.eqb "+" "-") with false.
    change (Ascii.eqb "+" "+") with true. cbv iota. rewrite Hscan.
    cbn [length Nat.add]. f_equal; lia.
  - cbn [scanSign]. change (Ascii.eqb "-" "-") with true. cbv iota.
    rewrite Hscan. cbn [length Nat.add]. f_equal; lia.
Qed.

Lemma SetString10_complete (s : string) (z : Z) :
  SetString10 s = Some z -> base10_denotes s z.
Proof.
  unfold SetString10. destruct s as [|c r]; [discriminate|].
  assert (Hfin : forall neg t,
    (let '(abs, count, rest) := natScan 0 0 t in
     match count, rest with
     | O, _ => None
     | S _, EmptyString => Some (if neg : bool then - abs else abs)
     | S _, String _ _ => None
     end) = Some z ->
    exists ds, ds <> [] /\ Forall (fun d => 0 <= d <= 9) ds /\
      t = renderDigits ds /\ z = if neg then - digitsValue ds else digitsValue ds).
  { intros neg t. destruct (natScan 0 0 t) as [[abs count] rest] eqn:Hscan.
    destruct count as [|n]; [discriminate|].
    destruct rest; [|discriminate]. intros [= <-].
    destruct (natScan_complete _ _ _ _ _ Hscan) as (ds & Hds & -> & -> & Hlen).
    exists ds. split; [|split; [exact Hds|split; [reflexivity|]]].
    - intros ->. discriminate.
    - destruct neg; f_equal; lia. }
  cbn [scanSign].
  destruct (Ascii.eqb c "-") eqn:Hm; [|destruct (Ascii.eqb c "+") eqn:Hp].
  - apply Ascii.eqb_eq in Hm as ->. intros Hz.
    destruct (Hfin true r Hz) as (ds & Hne & Hds & -> & ->).
    exists MinusSign, ds. auto.
  - apply Ascii.eqb_eq in Hp as ->. intros Hz.
    destruct (Hfin false r Hz) as (ds & Hne & Hds & -> & ->).
    exists PlusSign, ds. auto.
  - intros Hz.
    destruct (Hfin false (String c r) Hz) as (ds & Hne & Hds & Heq & ->).
    exists NoSign, ds. rewrite Heq. auto.
Qed.

Lemma SetString10_contract (s msg : string) :
  amount_contract s
    (match SetString10 s with Some val => Return val | None => Panic msg end).
Proof.
  split.
  - intros z Hz. rewrite (SetString10_sound s z Hz). reflexivity.
  - intros Hinvalid. destruct (SetString10 s) as [z|] eqn:Hs.
    + exfalso. apply Hinvalid. exists z. apply SetString10_complete, Hs.
    + exists msg. reflexivity.
Qed.

(** C9: every amount accessor parses its field as a base-10 integer: for a
    valid numeral it returns the integer the numeral denotes, for any other
    string (such as "not-a-number") it panics. *)
Theorem amount_accessors_fatal_parse (d : Delegate) (r : Rewarding) :
  amount_contract (VotesStr d) (Votes d) /\
  amount_contract (InitBalanceStr r) (InitBalance r) /\
  amount_contract (BlockRewardStr r) (BlockReward r) /\
  amount_contract (EpochRewardStr r) (EpochReward r) /\
  amount_contract (AleutianEpochRewardStr r) (AleutianEpochReward r) /\
  amount_contract (DardanellesBlockRewardStr r) (DardanellesBlockReward r) /\
  amount_contract (WakeBlockRewardStr r) (WakeBlockReward r) /\
  amount_contract (FoundationBonusStr r) (FoundationBonus r) /\
  ~ valid_base10 "not-a-number".
Proof.
  repeat split; try apply SetString10_contract.
  intros [z Hz]. apply SetString10_sound in Hz. discriminate Hz.
Qed.

Example Votes_not_a_number :
  Votes (mkDelegate "io1a" "io1a" "not-a-number")
  = Panic "Error when casting votes string not-a-number into big int".
Proof. reflexivity. Qed.

Example Votes_default_balance :
  Votes (mkDelegate "io1a" "io1a" "100000000000000000000000000")
  = Return 100000000000000000000000000.
Proof. reflexivity. Qed.

Example WakeBlockReward_default (ConvertIotxToRau : Z -> Z)
    (BigInt_String : Z -> string) :
  WakeBlockReward (gRewarding (defaultConfig ConvertIotxToRau BigInt_String))
  = Return 4000000000000000000.
Proof. reflexivity. Qed.

Lemma amount_accessors_fatal_parse_witness :
  Votes (mkDelegate "io1a" "io1a" "-42") = Return (-42) /\
  exists msg, BlockReward
    (mkRewarding "1" "not-a-number" "1" "1" "1" 0 [] "1" 0 0 0 0 0 "1")
    = Panic msg.
Proof.
  pose (d := mkDelegate "io1a" "io1a" "-42").
  pose (r := mkRewarding "1" "not-a-number" "1" "1" "1" 0 [] "1" 0 0 0 0 0 "1").
  destruct (amount_accessors_fatal_parse d r) as (Hv & _ & Hb & _ & _ & _ & _ & _ & Hnan).
  split.
  - apply (proj1 Hv). exists MinusSign, [4; 2].
    split; [discriminate|]. split; [|split; reflexivity].
    repeat constructor; lia.
  - apply (proj2 Hb). exact Hnan.
Defined.

(** ** The replay-deployer allowlist *)

Section Allowlist.
Context `{AddressLib}.

Lemma sliceTo_long (v : string) (n : nat) :
  (n <= String.length v)%nat -> sliceTo v n = Return (substring 0 n v).
Proof.
  intros Hlen. unfold sliceTo.
  destruct (Nat.leb_spec n (String.length v)); [reflexivity | lia].
Qed.

Lemma sliceTo_short (v : string) (n : nat) :
  (String.length v < n)%nat ->
  sliceTo v n = Panic "runtime error: slice bounds out of range".
Proof.
  intros Hlen. unfold sliceTo.
  destruct (Nat.leb_spec n (String.length v)); [lia | reflexivity].
Qed.

(** When every entry has at least three bytes the lookup returns, and
    returns whether some entry matches. *)
Lemma whitelistLoop_long (deployer : Address) (l : list string) :
  Forall (fun v => (3 <= String.length v)%nat) l ->
  whitelistLoop deployer l = Return (existsb (entryMatches deployer) l).
Proof.
  induction 1 as [|v l Hv Hl IH]; [reflexivity|].
  cbn [whitelistLoop existsb]. unfold entryMatches at 1.
  rewrite (sliceTo_long v 3 Hv), IH.
  destruct (String.eqb (substring 0 3 v) "io1").
  - destruct (FromString v) as [addr|]; [|cbn [orb]; reflexivity].
    destruct (Equal deployer addr); cbn [orb]; reflexivity.
  - destruct (IsHexAddress v); [|cbn [orb]; reflexivity].
    destruct (FromHex v) as [addr|]; [|cbn [orb]; reflexivity].
    destruct (Equal deployer addr); cbn [orb]; reflexivity.
Qed.

(** An entry of fewer than three bytes that the loop reaches aborts the
    lookup. *)
Lemma whitelistLoop_short (deployer : Address) (pre : list string)
    (v : string) (rest : list string) :
  Forall (fun w => (3 <= String.length w)%nat) pre ->
  existsb (entryMatches deployer) pre = false ->
  (String.length v < 3)%nat ->
  whitelistLoop deployer (pre ++ v :: rest)
  = Panic "runtime error: slice bounds out of range".
Proof.
  intros Hpre. induction Hpre as [|w pre Hw Hpre IH]; intros Hno Hv.
  - cbn [app whitelistLoop]. rewrite (sliceTo_short v 3 Hv). reflexivity.
  - cbn [existsb] in Hno. apply orb_false_elim in Hno as [Hw' Hno].
    cbn [app whitelistLoop]. rewrite (sliceTo_long w 3 Hw).
    unfold entryMatches in Hw'. rewrite (IH Hno Hv).
    destruct (String.eqb (substring 0 3 w) "io1").
    + destruct (FromString w) as [addr|]; [|reflexivity].
      rewrite Hw'. reflexivity.
    + destruct (IsHexAddress w); [|reflexivity].
      destruct (FromHex w) as [addr|]; [|reflexivity].
      rewrite Hw'. reflexivity.
Qed.

(** C7 does not hold of short entries: an allowlist whose first entry is
    the empty string, or the two bytes [0x], makes the lookup panic on the
    slice [v[:3]] instead of returning a boolean, whatever the deployer and
    the other entries are. *)
Theorem IsDeployerWhitelisted_short_entry_panics (m : gmap string string)
    (rest : list string) (deployer : Address) :
  IsDeployerWhitelisted (mkAccount m (EmptyString :: rest)) deployer
  = Panic "runtime error: slice bounds out of range" /\
  IsDeployerWhitelisted (mkAccount m ("0x" :: rest)) deployer
  = Panic "runtime error: slice bounds out of range".
Proof. split; reflexivity. Qed.
End Allowlist.

Example IsDeployerWhitelisted_default_hex :
  @IsDeployerWhitelisted textAddressLib
    (gAccount (defaultConfig (Z.mul 1000000000000000000) pretty))
    "0x3fab184622dc19b6109349b94811493bf2a45362"
  = Return true.
Proof. reflexivity. Qed.

Example IsDeployerWhitelisted_unrelated :
  @IsDeployerWhitelisted textAddressLib
    (gAccount (defaultConfig (Z.mul 1000000000000000000) pretty))
    "0x0000000000000000000000000000000000000001"
  = Return false.
Proof. reflexivity. Qed.

(** ** The commitment *)

Lemma sortStrings_Sorted (l : list string) : Sorted String.le (sortStrings l).
Proof. apply (Sorted_merge_sort String.le). Qed.

Lemma sortStrings_Permutation (l : list string) : sortStrings l ≡ₚ l.
Proof. apply (merge_sort_Permutation String.le). Qed.

(** Sorting forgets the order of its input. *)
Lemma sortStrings_order (l1 l2 : list string) :
  l1 ≡ₚ l2 -> sortStrings l1 = sortStrings l2.
Proof.
  intros Hperm. apply (Sorted_unique String.le).
  - apply sortStrings_Sorted.
  - apply sortStrings_Sorted.
  - rewrite !sortStrings_Permutation. exact Hperm.
Qed.

Lemma rangeOrder_elem (m : gmap string string) (order : list string) (k : string) :
  rangeOrder m order -> (k ∈ order <-> is_Some (m !! k)).
Proof.
  unfold rangeOrder. intros ->. rewrite list_elem_of_fmap. split.
  - intros ([k' v] & -> & Hin). apply elem_of_map_to_list in Hin. eauto.
  - intros [v Hv]. exists (k, v). split; [reflexivity|].
    apply elem_of_map_to_list. exact Hv.
Qed.

Lemma genesisProto_order (g : Genesis) (o1 o2 : list string) :
  rangeOrder (InitBalanceMap (gAccount g)) o1 ->
  rangeOrder (InitBalanceMap (gAccount g)) o2 ->
  genesisProto o1 g = genesisProto o2 g.
Proof.
  unfold rangeOrder. intros H1 H2. unfold genesisProto.
  rewrite (sortStrings_order o1 o2) by (rewrite H1, H2; reflexivity).
  reflexivity.
Qed.

Lemma committedAgree_genesisProto (g1 g2 : Genesis) (o1 o2 : list string) :
  committedAgree g1 g2 ->
  rangeOrder (InitBalanceMap (gAccount g1)) o1 ->
  rangeOrder (InitBalanceMap (gAccount g2)) o2 ->
  genesisProto o1 g1 = genesisProto o2 g2.
Proof.
  intros Hagree H1 H2.
  pose proof (Hagree cInitBalanceMap) as Hmap. cbn in Hmap.
  rewrite <- Hmap in H2.
  rewrite (genesisProto_order g1 o1 o2 H1 H2).
  unfold genesisProto. rewrite Hmap.
  pose proof (Hagree cTimestamp) as ->. pose proof (Hagree cBlockGasLimit) as ->.
  pose proof (Hagree cActionGasLimit) as ->.
  pose proof (Hagree cBlockInterval) as ->.
  pose proof (Hagree cNumSubEpochs) as ->.
  pose proof (Hagree cNumDelegates) as ->.
  pose proof (Hagree cNumCandidateDelegates) as ->.
  pose proof (Hagree cTimeBasedRotation) as ->.
  pose proof (Hagree cDelegates) as ->.
  pose proof (Hagree cEnableGravityChainVoting) as ->.
  pose proof (Hagree cGravityChainStartHeight) as ->.
  pose proof (Hagree cRegisterContractAddress) as ->.
  pose proof (Hagree cStakingContractAddress) as ->.
  pose proof (Hagree cVoteThreshold) as ->.
  pose proof (Hagree cScoreThreshold) as ->.
  pose proof (Hagree cSelfStakingThreshold) as ->.
  pose proof (Hagree cInitBalanceStr) as ->.
  pose proof (Hagree cBlockRewardStr) as ->.
  pose proof (Hagree cEpochRewardStr) as ->.
  pose proof (Hagree cNumDelegatesForEpochReward) as ->.
  pose proof (Hagree cFoundationBonusStr) as ->.
  pose proof (Hagree cNumDelegatesForFoundationBonus) as ->.
  pose proof (Hagree cFoundationBonusLastEpoch) as ->.
  pose proof (Hagree cProductivityThreshold) as ->.
  reflexivity.
Qed.

Lemma sameParts_committedAgree (g1 g2 : Genesis) :
  InitBalanceMap (gAccount g1) = InitBalanceMap (gAccount g2) ->
  gBlockchain g1 = gBlockchain g2 -> gPoll g1 = gPoll g2 ->
  gRewarding g1 = gRewarding g2 ->
  committedAgree g1 g2.
Proof.
  intros Hm Hb Hp Hr f. destruct f; cbn; congruence.
Qed.

(** C2: two parameter sets whose balance tables hold the same
    address-to-amount pairs and which agree on every other field have the
    same commitment, in whatever order the tables were filled and in
    whatever orders the two [range] loops yield the addresses; the addresses
    reach the serializer sorted. *)
Theorem Hash_order_independent `{ProtoLib} (g1 g2 : Genesis)
    (o1 o2 : list string) :
  (forall addr, InitBalanceMap (gAccount g1) !! addr
                = InitBalanceMap (gAccount g2) !! addr) ->
  gBlockchain g1 = gBlockchain g2 ->
  ReplayDeployerWhitelist (gAccount g1) = ReplayDeployerWhitelist (gAccount g2) ->
  gPoll g1 = gPoll g2 -> gRewarding g1 = gRewarding g2 ->
  gStaking g1 = gStaking g2 ->
  rangeOrder (InitBalanceMap (gAccount g1)) o1 ->
  rangeOrder (InitBalanceMap (gAccount g2)) o2 ->
  Hash o1 g1 = Hash o2 g2 /\
  Sorted String.le
    (iotextypes.InitBalanceAddrs (iotextypes.Account (genesisProto o1 g1))).
Proof.
  intros Hlook Hb _ Hp Hr _ H1 H2. split.
  - unfold Hash.
    rewrite (committedAgree_genesisProto g1 g2 o1 o2); [reflexivity| |exact H1|exact H2].
    apply sameParts_committedAgree; try assumption.
    apply map_eq, Hlook.
  - cbn. apply sortStrings_Sorted.
Qed.

Lemma balancesAB_order : rangeOrder balancesAB ["b"; "a"].
Proof.
  unfold rangeOrder.
  replace ((map_to_list balancesAB).*1) with ["a"; "b"] by (vm_compute; reflexivity).
  apply perm_swap.
Qed.

Lemma balancesBA_order : rangeOrder balancesBA ["a"; "b"].
Proof.
  unfold rangeOrder.
  replace ((map_to_list balancesBA).*1) with ["a"; "b"] by (vm_compute; reflexivity).
  reflexivity.
Qed.

Lemma Hash_order_independent_witness :
  @Hash constantProtoLib ["b"; "a"] (withInitBalanceMap zeroGenesis balancesAB)
  = @Hash constantProtoLib ["a"; "b"] (withInitBalanceMap zeroGenesis balancesBA).
Proof.
  refine (proj1 (@Hash_order_independent constantProtoLib
           (withInitBalanceMap zeroGenesis balancesAB)
           (withInitBalanceMap zeroGenesis balancesBA)
           ["b"; "a"] ["a"; "b"] _ eq_refl eq_refl eq_refl eq_refl eq_refl
           balancesAB_order balancesBA_order)).
  intros addr. cbn. unfold balancesAB, balancesBA.
  rewrite insert_insert_ne by discriminate. reflexivity.
Defined.

(** The balance table of the spec's example reaches the serializer as
    index-aligned sequences in ascending address order. *)
Example genesisProto_sorted_balances :
  let m : gmap string string :=
    <["b" := "2"]> (<["a" := "1"]> (<["c" := "3"]> ∅)) in
  iotextypes.Account (genesisProto ["c"; "b"; "a"] (withInitBalanceMap zeroGenesis m))
  = {| iotextypes.InitBalanceAddrs := ["a"; "b"; "c"];
       iotextypes.InitBalances := ["1"; "2"; "3"] |}.
Proof. vm_compute. reflexivity. Qed.

(** C4: the commitment depends on the committed fields only: parameter
    sets that agree on them have the same commitment, and replacing every
    fork-activation height, the staking sub-record and the deployer
    allowlist leaves the commitment as it was. *)
Theorem Hash_ignores_uncommitted `{ProtoLib} :
  (forall g1 g2 o1 o2,
     committedAgree g1 g2 ->
     rangeOrder (InitBalanceMap (gAccount g1)) o1 ->
     rangeOrder (InitBalanceMap (gAccount g2)) o2 ->
     Hash o1 g1 = Hash o2 g2) /\
  (forall g (heights : Fork -> Z) (st : Staking) (wl : list string) o,
     Hash o (withUncommitted g heights st wl) = Hash o g).
Proof.
  split.
  - intros g1 g2 o1 o2 Hagree H1 H2. unfold Hash.
    rewrite (committedAgree_genesisProto g1 g2 o1 o2 Hagree H1 H2).
    reflexivity.
  - intros g heights st wl o. reflexivity.
Qed.

Lemma Hash_ignores_uncommitted_witness :
  @Hash constantProtoLib []
    (withUncommitted zeroGenesis (fun _ => 7) (gStaking zeroGenesis) ["io1xyz"])
  = @Hash constantProtoLib [] zeroGenesis.
Proof.
  refine (proj1 (@Hash_ignores_uncommitted constantProtoLib) _ _ [] [] _ _ _).
  - intros f. destruct f; reflexivity.
  - unfold rangeOrder. reflexivity.
  - unfold rangeOrder. reflexivity.
Defined.

Lemma delegateProto_inj (d1 d2 : Delegate) :
  delegateProto d1 = delegateProto d2 -> d1 = d2.
Proof.
  destruct d1, d2. unfold delegateProto. cbn. intros [= -> -> ->]. reflexivity.
Qed.

Lemma delegateProtos_inj (l1 l2 : list Delegate) :
  delegateProto <$> l1 = delegateProto <$> l2 -> l1 = l2.
Proof.
  revert l2. induction l1 as [|d1 l1 IH]; intros [|d2 l2];
    rewrite ?fmap_nil, ?fmap_cons; try discriminate; [reflexivity|].
  intros Heq. apply (f_equal head) in Heq as Hd.
  apply (f_equal tail) in Heq as Hl. cbn [head tail] in Hd, Hl.
  assert (Hd' : delegateProto d1 = delegateProto d2) by congruence.
  f_equal; [apply delegateProto_inj, Hd' | apply IH, Hl].
Qed.

(** The sorted addresses with their index-aligned amounts determine the
    balance table. *)
Lemma balances_determined (m1 m2 : gmap string string) (o1 o2 : list string) :
  rangeOrder m1 o1 -> rangeOrder m2 o2 ->
  sortStrings o1 = sortStrings o2 ->
  mapIndex m1 <$> sortStrings o1 = mapIndex m2 <$> sortStrings o2 ->
  m1 = m2.
Proof.
  intros H1 H2 Hkeys Hvals. rewrite <- Hkeys in Hvals.
  assert (Hsame : forall k, k ∈ sortStrings o1 -> mapIndex m1 k = mapIndex m2 k).
  { intros k Hk.
    assert (Hall : Forall (fun k => mapIndex m1 k = mapIndex m2 k) (sortStrings o1)).
    { clear -Hvals. induction (sortStrings o1) as [|a l IH]; [constructor|].
      injection Hvals as Ha Hl. constructor; [exact Ha | apply IH, Hl]. }
    rewrite Forall_forall in Hall. apply Hall, Hk. }
  apply map_eq. intros k.
  assert (Hdom : is_Some (m1 !! k) <-> is_Some (m2 !! k)).
  { rewrite <- (rangeOrder_elem m1 o1 k H1), <- (rangeOrder_elem m2 o2 k H2).
    rewrite <- (sortStrings_Permutation o1), <- (sortStrings_Permutation o2).
    rewrite Hkeys. reflexivity. }
  destruct (m1 !! k) as [v1|] eqn:E1.
  - destruct (proj1 Hdom (ex_intro _ v1 eq_refl)) as [v2 E2]. rewrite E2.
    assert (Hk : k ∈ sortStrings o1).
    { rewrite sortStrings_Permutation. apply (rangeOrder_elem m1 o1 k H1).
      rewrite E1. eauto. }
    specialize (Hsame k Hk). unfold mapIndex in Hsame.
    rewrite E1, E2 in Hsame. cbn in Hsame. congruence.
  - destruct (m2 !! k) as [v2|] eqn:E2; [|reflexivity].
    destruct (proj2 Hdom (ex_intro _ v2 eq_refl)) as [v1 Hv1]. discriminate.
Qed.

(** Every committed field can be read back from the message. *)
Lemma genesisProto_agree (g1 g2 : Genesis) (o1 o2 : list string) :
  rangeOrder (InitBalanceMap (gAccount g1)) o1 ->
  rangeOrder (InitBalanceMap (gAccount g2)) o2 ->
  genesisProto o1 g1 = genesisProto o2 g2 ->
  committedAgree g1 g2.
Proof.
  intros H1 H2 Heq. unfold genesisProto in Heq.
  injection Heq as Ht Hbg Hag Hbi Hns Hnd Hnc Htr Hkeys Hvals
    Hgv Hgs Hrc Hsc Hvt Hst Hss Hds Hib Hbr Her Hne Hfb Hnf Hfl Hpt.
  intros f. destruct f; cbn; try assumption.
  - apply (balances_determined _ _ o1 o2 H1 H2 Hkeys Hvals).
  - apply delegateProtos_inj, Hds.
Qed.

Lemma Hash_returned `{ProtoLib} (o : list string) (g : Genesis) (b : list Byte.byte) :
  Marshal (genesisProto o g) = inl b -> Hash o g = Return (Hash256b b).
Proof. intros Hb. unfold Hash. rewrite Hb. reflexivity. Qed.

(** C5, as the code has it: when two parameter sets differ in a field that
    [Hash] copies into the message, the two messages differ; so the two
    commitments differ unless the serializer or the 256-bit hash sends two
    distinct inputs to one output. *)
Theorem Hash_sensitive_up_to_collision `{ProtoLib} (f : CommittedField)
    (g1 g2 : Genesis) (o1 o2 : list string) :
  rangeOrder (InitBalanceMap (gAccount g1)) o1 ->
  rangeOrder (InitBalanceMap (gAccount g2)) o2 ->
  ~ agreeOn f g1 g2 ->
  genesisProto o1 g1 <> genesisProto o2 g2 /\
  (forall b1 b2,
     Marshal (genesisProto o1 g1) = inl b1 ->
     Marshal (genesisProto o2 g2) = inl b2 ->
     commitmentsDiffer (Hash o1 g1) (Hash o2 g2) \/
     collision Marshal (genesisProto o1 g1) (genesisProto o2 g2) \/
     collision Hash256b b1 b2).
Proof.
  intros H1 H2 Hdiff.
  assert (Hne : genesisProto o1 g1 <> genesisProto o2 g2).
  { intros Heq. apply Hdiff. apply (genesisProto_agree g1 g2 o1 o2 H1 H2 Heq). }
  split; [exact Hne|]. intros b1 b2 Hb1 Hb2.
  destruct (decide (b1 = b2)) as [->|Hb].
  - right. left. split; [exact Hne | congruence].
  - destruct (decide (Hash256b b1 = Hash256b b2)) as [Hh|Hh].
    + right. right. split; assumption.
    + left. exists (Hash256b b1), (Hash256b b2).
      rewrite (Hash_returned o1 g1 b1 Hb1), (Hash_returned o2 g2 b2 Hb2). auto.
Qed.

Lemma Hash_sensitive_up_to_collision_witness :
  genesisProto [] (initBalanceStrVariant "1")
  <> genesisProto [] (initBalanceStrVariant "2").
Proof.
  refine (proj1 (@Hash_sensitive_up_to_collision constantProtoLib
            cInitBalanceStr (initBalanceStrVariant "1")
            (initBalanceStrVariant "2") [] [] _ _ _)).
  - unfold rangeOrder. reflexivity.
  - unfold rangeOrder. reflexivity.
  - cbn. discriminate.
Defined.

(** A finite type cannot hold a distinct value for every number. *)
Lemma finite_range_collision {B : Type} `{Finite B} (f : nat -> B) :
  exists i j, i <> j /\ f i = f j.
Proof.
  destruct (finite_pigeonhole (fun i : fin (S (card B)) => f (fin_to_nat i)))
    as (i & j & Hij & Hf).
  - rewrite fin_card. apply Nat.lt_succ_diag_r.
  - exists (fin_to_nat i), (fin_to_nat j). split; [|exact Hf].
    intros Heq. apply Hij. apply (inj fin_to_nat). exact Heq.
Qed.

Lemma byte_finite : Finite Byte.byte.
Proof.
  refine (enc_finite Byte.to_nat
            (fun n => default Byte.x00 (Byte.of_nat n)) 256 _ _ _).
  - intros x. rewrite Byte.of_to_nat. reflexivity.
  - intros x. pose proof (Byte.to_nat_bounded x). lia.
  - intros i Hi. destruct (Byte.of_nat i) as [y|] eqn:Hy.
    + apply Byte.to_of_nat in Hy. exact Hy.
    + apply Byte.of_nat_None_iff in Hy. lia.
Qed.

Lemma Hash256_finite : Finite Hash256.
Proof. pose proof byte_finite. unfold Hash256. apply _. Qed.

Lemma initBalanceStrVariant_differ (s1 s2 : string) :
  s1 <> s2 ->
  differInExactly cInitBalanceStr (initBalanceStrVariant s1)
    (initBalanceStrVariant s2).
Proof.
  intros Hne. split.
  - cbn. exact Hne.
  - intros f' Hf'. destruct f'; try reflexivity. congruence.
Qed.

(** Whatever the serializer and the 256-bit hash are, some two parameter
    sets that differ in the rewarding fund's initial balance only do not get
    different commitments. *)
Lemma Hash_collision_exists `{ProtoLib} :
  exists s1 s2,
    differInExactly cInitBalanceStr (initBalanceStrVariant s1)
      (initBalanceStrVariant s2) /\
    ~ commitmentsDiffer (Hash [] (initBalanceStrVariant s1))
        (Hash [] (initBalanceStrVariant s2)).
Proof.
  pose proof Hash256_finite as Hfin.
  destruct (finite_range_collision
              (fun n : nat => returned (Hash [] (initBalanceStrVariant (pretty n)))))
    as (i & j & Hij & Hsame).
  exists (pretty i), (pretty j). split.
  - apply initBalanceStrVariant_differ. intros Heq. apply Hij.
    apply (inj pretty). exact Heq.
  - intros (h1 & h2 & E1 & E2 & Hne). rewrite E1, E2 in Hsame.
    cbn in Hsame. congruence.
Qed.

(** C5 as stated fails twice over.  A poll height that the claim lists but
    [Hash] does not read, [GravityChainCeilingHeight], changes without the
    commitment changing; and a field that [Hash] does read has more values
    than there are 256-bit commitments. *)
Lemma Hash_sensitivity_counterexample :
  (GravityChainCeilingHeight (gPoll (ceilingHeightVariant 1))
   <> GravityChainCeilingHeight (gPoll (ceilingHeightVariant 2)) /\
   forall lib : ProtoLib,
     @Hash lib [] (ceilingHeightVariant 1) = @Hash lib [] (ceilingHeightVariant 2)) /\
  (forall lib : ProtoLib,
     exists s1 s2,
       differInExactly cInitBalanceStr (initBalanceStrVariant s1)
         (initBalanceStrVariant s2) /\
       ~ commitmentsDiffer (@Hash lib [] (initBalanceStrVariant s1))
           (@Hash lib [] (initBalanceStrVariant s2))).
Proof.
  split; [split|].
  - cbn. discriminate.
  - intros lib. reflexivity.
  - intros lib. apply Hash_collision_exists.
Qed.

(** ** Loading *)

Section LoadingProperties.
Variable ConvertIotxToRau : Z -> Z.
Variable BigInt_String : Z -> string.
Context `{ConfigLib}.

(** [New] hands the library the defaults and, for a non-empty path, the
    file; it never asks for the permissive mode. *)
Lemma New_failure (fs : FileSystem) (genesisPath : string) :
  genesisPath <> EmptyString ->
  match NewYAML fs [Static (defaultConfig ConvertIotxToRau BigInt_String);
                    File genesisPath] with
  | inr _ => True
  | inl p => exists err, Populate p = inr err
  end ->
  exists err,
    New ConvertIotxToRau BigInt_String fs genesisPath = (zeroGenesis, Some err).
Proof.
  intros Hpath Hfail. unfold New.
  destruct (String.eqb_spec genesisPath EmptyString) as [|_]; [contradiction|].
  cbn [app].
  destruct (NewYAML fs _) as [p|err].
  - destruct Hfail as [err Herr]. rewrite Herr. eauto.
  - eauto.
Qed.

(** C6: with the library in its default strict mode, an override file
    that has a key outside the recognised ones makes [New] return an error
    next to the zero [Genesis], never a populated parameter set. *)
Theorem New_rejects_unknown_keys (fs : FileSystem) (genesisPath : string)
    (doc : Yaml) :
  strictByDefault ->
  genesisPath <> EmptyString ->
  fs genesisPath = Some doc ->
  hasUnknownKey genesisShape doc = true ->
  exists err,
    New ConvertIotxToRau BigInt_String fs genesisPath = (zeroGenesis, Some err).
Proof.
  intros Hstrict Hpath Hdoc Hunknown.
  apply New_failure; [exact Hpath|].
  apply (Hstrict fs _ genesisPath doc); [|set_solver|exact Hdoc|exact Hunknown].
  rewrite !elem_of_cons, elem_of_nil. intros [E|[E|[]]]; discriminate E.
Qed.
End LoadingProperties.

Lemma strictConfigLib_strict : @strictByDefault strictConfigLib.
Proof.
  intros fs opts name doc Hperm Hfile Hdoc Hunknown. cbn.
  assert (Hstrict : existsb isPermissive opts = false).
  { apply not_true_is_false. intros Hex.
    apply existsb_exists in Hex as (o & Ho & Hp).
    destruct o; try discriminate. apply Hperm, list_elem_of_In, Ho. }
  rewrite Hstrict. cbn [negb andb].
  assert (Hex : existsb (hasUnknownKey genesisShape)
                  (omap (optionFile fs) opts) = true).
  { apply existsb_exists. exists doc. split; [|exact Hunknown].
    apply list_elem_of_In, list_elem_of_omap. exists (File name).
    split; [exact Hfile | exact Hdoc]. }
  rewrite Hex. eauto.
Qed.

Lemma New_rejects_unknown_keys_witness :
  exists err,
    @New (Z.mul 1000000000000000000) pretty strictConfigLib bogusFiles "genesis.yaml"
    = (zeroGenesis, Some err).
Proof.
  apply (@New_rejects_unknown_keys (Z.mul 1000000000000000000) pretty
           strictConfigLib bogusFiles "genesis.yaml" bogusOverride).
  - exact strictConfigLib_strict.
  - discriminate.
  - reflexivity.
  - reflexivity.
Defined.

(** Without an override file the same loader succeeds, and the empty
    balance table is replaced by the bootstrap table. *)
Example New_no_override :
  @New (Z.mul 1000000000000000000) pretty strictConfigLib bogusFiles EmptyString
  = (withInitBalanceMap (defaultConfig (Z.mul 1000000000000000000) pretty)
       defaultInitBalanceMap, None).
Proof. reflexivity. Qed.

(** * Further properties of the package *)

(** ** Initial balances *)

Lemma Forall2_impl_elem {A B : Type} (P Q : A -> B -> Prop) (l : list A)
    (k : list B) :
  Forall2 P l k -> (forall x y, x ∈ l -> P x y -> Q x y) -> Forall2 Q l k.
Proof.
  induction 1 as [|x y l k Hxy Hlk IH]; intros Himp; constructor.
  - apply Himp; [left | exact Hxy].
  - apply IH. intros x' y' Hin. apply Himp. right. exact Hin.
Qed.

Section InitialBalances.
Context `{AddressLib}.

(** The loop either appends the parsed addresses and amounts of all
    remaining keys, or stops at the first key it cannot materialize. *)
Lemma initBalancesLoop_returns (m : gmap string string) (ks : list string)
    (addrs addrs' : list Address) (amounts amounts' : list Z) :
  initBalancesLoop m ks addrs amounts = Return (addrs', amounts') <->
  exists new_addrs new_amounts,
    Forall2 (fun k addr => FromString k = Some addr) ks new_addrs /\
    Forall2 (fun k z => SetString10 (mapIndex m k) = Some z) ks new_amounts /\
    addrs' = (addrs ++ new_addrs)%list /\
    amounts' = (amounts ++ new_amounts)%list.
Proof.
  revert addrs amounts. induction ks as [|k ks IH]; intros addrs amounts;
    cbn [initBalancesLoop].
  - split.
    + intros [= <- <-]. exists [], []. rewrite !app_nil_r.
      repeat split; constructor.
    + intros (na & nz & Ha & Hz & -> & ->).
      apply Forall2_nil_inv_l in Ha as ->. apply Forall2_nil_inv_l in Hz as ->.
      rewrite !app_nil_r. reflexivity.
  - destruct (FromString k) as [addr|] eqn:Hk.
    + destruct (SetString10 (mapIndex m k)) as [z|] eqn:Hv.
      * rewrite IH. split.
        -- intros (na & nz & Ha & Hz & -> & ->). exists (addr :: na), (z :: nz).
           rewrite <- !app_assoc. repeat split; try constructor; assumption.
        -- intros (na & nz & Ha & Hz & -> & ->).
           apply Forall2_cons_inv_l in Ha as (a0 & na' & Ha0 & Ha & ->).
           apply Forall2_cons_inv_l in Hz as (z0 & nz' & Hz0 & Hz & ->).
           exists na', nz'. rewrite <- !app_assoc.
           assert (a0 = addr) as -> by congruence.
           assert (z0 = z) as -> by congruence.
           repeat split; assumption.
      * split; [discriminate|].
        intros (na & nz & _ & Hz & _).
        apply Forall2_cons_inv_l in Hz as (z0 & _ & Hz0 & _). congruence.
    + split; [discriminate|].
      intros (na & nz & Ha & _).
      apply Forall2_cons_inv_l in Ha as (a0 & _ & Ha0 & _). congruence.
Qed.

Lemma initBalancesLoop_panics (m : gmap string string) (ks : list string)
    (addrs : list Address) (amounts : list Z) :
  (exists msg, initBalancesLoop m ks addrs amounts = Panic msg) <->
  Exists (fun k => FromString k = None \/ SetString10 (mapIndex m k) = None) ks.
Proof.
  revert addrs amounts. induction ks as [|k ks IH]; intros addrs amounts;
    cbn [initBalancesLoop].
  - split; [intros [msg Hmsg]; discriminate | intros Hex; inversion Hex].
  - rewrite Exists_cons. destruct (FromString k) as [addr|] eqn:Hk.
    + destruct (SetString10 (mapIndex m k)) as [z|] eqn:Hv.
      * rewrite IH. split; [auto|]. intros [[?|?]|?]; [discriminate..|assumption].
      * split; eauto.
    + split; eauto.
Qed.

Lemma rangeOrder_sorted_lookup (m : gmap string string) (order : list string)
    (k : string) :
  rangeOrder m order ->
  k ∈ sortStrings order -> exists v, m !! k = Some v /\ mapIndex m k = v.
Proof.
  intros Hord Hk. rewrite sortStrings_Permutation in Hk.
  apply (rangeOrder_elem m order k Hord) in Hk as [v Hv].
  exists v. split; [exact Hv|]. unfold mapIndex. rewrite Hv. reflexivity.
Qed.

Lemma rangeOrder_length (m : gmap string string) (order : list string) :
  rangeOrder m order -> length (sortStrings order) = size m.
Proof.
  unfold rangeOrder. intros Hord.
  rewrite sortStrings_Permutation, Hord, length_fmap.
  apply length_map_to_list.
Qed.

(** [InitBalances] returns exactly when every address of the table parses
    and every amount is a base-10 numeral; it then returns, in ascending
    order of the address strings, the parsed addresses and, index-aligned,
    the integers their amounts denote: one entry per entry of the table. *)
Theorem InitBalances_returns_iff (order : list string) (a : Account)
    (addrs : list Address) (amounts : list Z) :
  rangeOrder (InitBalanceMap a) order ->
  (InitBalances order a = Return (addrs, amounts) <->
   Forall2 (fun k addr => FromString k = Some addr) (sortStrings order) addrs /\
   Forall2 (fun k z => exists v, InitBalanceMap a !! k = Some v /\ base10_denotes v z)
     (sortStrings order) amounts) /\
  (InitBalances order a = Return (addrs, amounts) ->
   length addrs = size (InitBalanceMap a) /\
   length amounts = size (InitBalanceMap a)).
Proof.
  intros Hord.
  assert (Hamt : forall zs,
    Forall2 (fun k z => SetString10 (mapIndex (InitBalanceMap a) k) = Some z)
      (sortStrings order) zs <->
    Forall2 (fun k z => exists v, InitBalanceMap a !! k = Some v /\ base10_denotes v z)
      (sortStrings order) zs).
  { intros zs. split; intros HF.
    - eapply Forall2_impl_elem; [exact HF|].
      intros k z Hk Hs.
      destruct (rangeOrder_sorted_lookup _ _ k Hord Hk) as (v & Hv & Hidx).
      exists v. split; [exact Hv|]. cbn beta in Hs. rewrite Hidx in Hs.
      apply SetString10_complete, Hs.
    - eapply Forall2_impl; [exact HF|].
      intros k z (v & Hv & Hden). unfold mapIndex. rewrite Hv. cbn.
      apply SetString10_sound, Hden. }
  assert (Hiff : InitBalances order a = Return (addrs, amounts) <->
    Forall2 (fun k addr => FromString k = Some addr) (sortStrings order) addrs /\
    Forall2 (fun k z => SetString10 (mapIndex (InitBalanceMap a) k) = Some z)
      (sortStrings order) amounts).
  { unfold InitBalances. rewrite initBalancesLoop_returns. split.
    - intros (na & nz & Ha & Hz & -> & ->). split; assumption.
    - intros [Ha Hz]. exists addrs, amounts. repeat split; assumption. }
  split.
  - rewrite Hiff, Hamt. reflexivity.
  - intros Hret. apply Hiff in Hret as [Ha Hz].
    rewrite <- (rangeOrder_length _ order Hord).
    apply Forall2_length in Ha, Hz. split; congruence.
Qed.
End InitialBalances.

Lemma InitBalances_returns_iff_witness :
  length ["a"; "b"] = size balancesAB /\ length [1; 2] = size balancesAB.
Proof.
  apply (proj2 (@InitBalances_returns_iff textAddressLib ["b"; "a"]
                  (mkAccount balancesAB []) ["a"; "b"] [1; 2] balancesAB_order)).
  vm_compute. reflexivity.
Defined.

Section InitialBalancesMore.
Context `{AddressLib}.

(** [InitBalances] panics exactly when the table has an entry whose address
    does not parse or whose amount is not a base-10 numeral. *)
Theorem InitBalances_panics_iff (order : list string) (a : Account) :
  rangeOrder (InitBalanceMap a) order ->
  ((exists msg, InitBalances order a = Panic msg) <->
   exists k v, InitBalanceMap a !! k = Some v /\
     (FromString k = None \/ ~ valid_base10 v)).
Proof.
  intros Hord. unfold InitBalances. rewrite initBalancesLoop_panics, Exists_exists.
  split.
  - intros (k & Hk & Hbad).
    destruct (rangeOrder_sorted_lookup _ _ k Hord Hk) as (v & Hv & Hidx).
    exists k, v. split; [exact Hv|]. rewrite Hidx in Hbad.
    destruct Hbad as [Hbad|Hbad]; [left; exact Hbad|right].
    intros [z Hz]. apply SetString10_sound in Hz. congruence.
  - intros (k & v & Hv & Hbad). exists k. split.
    + rewrite sortStrings_Permutation. apply (rangeOrder_elem _ order k Hord).
      rewrite Hv. eauto.
    + unfold mapIndex. rewrite Hv. cbn.
      destruct Hbad as [Hbad|Hbad]; [left; exact Hbad|right].
      destruct (SetString10 v) as [z|] eqn:Hs; [|reflexivity].
      exfalso. apply Hbad. exists z. apply SetString10_complete, Hs.
Qed.

(** The result of [InitBalances] does not depend on the order in which the
    [range] over the table yields the addresses. *)
Theorem InitBalances_order_independent (o1 o2 : list string) (a : Account) :
  rangeOrder (InitBalanceMap a) o1 -> rangeOrder (InitBalanceMap a) o2 ->
  InitBalances o1 a = InitBalances o2 a.
Proof.
  unfold rangeOrder, InitBalances. intros H1 H2.
  rewrite (sortStrings_order o1 o2) by (rewrite H1, H2; reflexivity).
  reflexivity.
Qed.

(** The state bootstrap and the commitment see one sequence: when
    [InitBalances] returns, its addresses and amounts are, position by
    position, the parsed address strings and amount strings that [Hash]
    puts into the message. *)
Theorem InitBalances_agrees_with_genesisProto (o1 o2 : list string)
    (g : Genesis) (addrs : list Address) (amounts : list Z) :
  rangeOrder (InitBalanceMap (gAccount g)) o1 ->
  rangeOrder (InitBalanceMap (gAccount g)) o2 ->
  InitBalances o1 (gAccount g) = Return (addrs, amounts) ->
  FromString <$> iotextypes.InitBalanceAddrs (iotextypes.Account (genesisProto o2 g))
  = Some <$> addrs /\
  SetString10 <$> iotextypes.InitBalances (iotextypes.Account (genesisProto o2 g))
  = Some <$> amounts.
Proof.
  intros H1 H2 Hret. cbn.
  rewrite (sortStrings_order o2 o1) by (unfold rangeOrder in *; rewrite H1, H2; reflexivity).
  unfold InitBalances in Hret. apply initBalancesLoop_returns in Hret
    as (na & nz & Ha & Hz & Haddrs & Hamounts).
  cbn in Haddrs, Hamounts. subst na nz.
  split.
  - clear Hz. induction Ha as [|k a0 ks as0 Hk Hks IH]; [reflexivity|].
    rewrite !fmap_cons, Hk, IH. reflexivity.
  - clear Ha. induction Hz as [|k z ks zs Hk Hks IH]; [reflexivity|].
    rewrite !fmap_cons, Hk, IH. reflexivity.
Qed.
End InitialBalancesMore.

Lemma InitBalances_panics_iff_witness :
  exists msg,
    @InitBalances textAddressLib ["a"]
      (mkAccount (<["a" := "1e18"]> ∅) []) = Panic msg.
Proof.
  apply (proj2 (@InitBalances_panics_iff textAddressLib ["a"]
                  (mkAccount (<["a" := "1e18"]> ∅) []) (reflexivity _))).
  exists "a", "1e18". split; [reflexivity|]. right.
  intros [z Hz]. apply SetString10_sound in Hz. discriminate Hz.
Defined.

Lemma InitBalances_order_independent_witness :
  @InitBalances textAddressLib ["b"; "a"] (mkAccount balancesAB [])
  = @InitBalances textAddressLib ["a"; "b"] (mkAccount balancesAB []).
Proof.
  apply (@InitBalances_order_independent textAddressLib).
  - exact balancesAB_order.
  - unfold rangeOrder.
    replace ((map_to_list balancesAB).*1) with ["a"; "b"] by (vm_compute; reflexivity).
    reflexivity.
Defined.

Lemma InitBalances_agrees_with_genesisProto_witness :
  let g := withInitBalanceMap zeroGenesis balancesAB in
  @FromString textAddressLib
    <$> iotextypes.InitBalanceAddrs (iotextypes.Account (genesisProto ["b"; "a"] g))
  = Some <$> ["a"; "b"] /\
  SetString10
    <$> iotextypes.InitBalances (iotextypes.Account (genesisProto ["b"; "a"] g))
  = Some <$> [1; 2].
Proof.
  intros g.
  apply (@InitBalances_agrees_with_genesisProto textAddressLib ["b"; "a"]
           ["b"; "a"] g ["a"; "b"] [1; 2] balancesAB_order balancesAB_order).
  vm_compute. reflexivity.
Defined.

(** ** The balance table inside the message *)

Lemma rangeOrder_NoDup (m : gmap string string) (order : list string) :
  rangeOrder m order -> NoDup (sortStrings order).
Proof.
  unfold rangeOrder. intros Hord.
  rewrite sortStrings_Permutation, Hord. apply NoDup_fst_map_to_list.
Qed.

Lemma zip_mapIndex_fst (m : gmap string string) (ks : list string) :
  (zip ks (mapIndex m <$> ks)).*1 = ks.
Proof.
  induction ks as [|k ks IH]; [reflexivity|].
  rewrite fmap_cons. cbn. rewrite IH. reflexivity.
Qed.

Lemma zip_mapIndex_elem (m : gmap string string) (ks : list string)
    (k v : string) :
  (k, v) ∈ zip ks (mapIndex m <$> ks) <-> k ∈ ks /\ v = mapIndex m k.
Proof.
  induction ks as [|k0 ks IH].
  - cbn. rewrite !elem_of_nil. tauto.
  - rewrite fmap_cons. cbn [zip zip_with]. rewrite !elem_of_cons, IH.
    split.
    + intros [[= -> ->]|[Hk ->]]; auto.
    + intros [[->|Hk] ->]; auto.
Qed.

(** The two sequences of the message's account part are a listing of the
    balance table: equally long, without a repeated address, ascending, and
    reading them back pairwise gives the table again. *)
Theorem genesisProto_balances_roundtrip (order : list string) (g : Genesis) :
  rangeOrder (InitBalanceMap (gAccount g)) order ->
  let acc := iotextypes.Account (genesisProto order g) in
  length (iotextypes.InitBalanceAddrs acc) = size (InitBalanceMap (gAccount g)) /\
  length (iotextypes.InitBalances acc) = size (InitBalanceMap (gAccount g)) /\
  NoDup (iotextypes.InitBalanceAddrs acc) /\
  list_to_map (zip (iotextypes.InitBalanceAddrs acc) (iotextypes.InitBalances acc))
  = InitBalanceMap (gAccount g).
Proof.
  intros Hord acc. subst acc. cbn.
  set (m := InitBalanceMap (gAccount g)) in *.
  pose proof (rangeOrder_NoDup m order Hord) as Hnd.
  split; [apply rangeOrder_length, Hord|].
  split; [rewrite length_fmap; apply rangeOrder_length, Hord|].
  split; [exact Hnd|].
  apply map_eq. intros k.
  destruct (m !! k) as [v|] eqn:Hk.
  - apply elem_of_list_to_map; [rewrite zip_mapIndex_fst; exact Hnd|].
    apply zip_mapIndex_elem. split.
    + rewrite sortStrings_Permutation. apply (rangeOrder_elem m order k Hord).
      rewrite Hk. eauto.
    + unfold mapIndex. rewrite Hk. reflexivity.
  - apply not_elem_of_list_to_map. rewrite zip_mapIndex_fst.
    rewrite sortStrings_Permutation. intros Hin.
    apply (rangeOrder_elem m order k Hord) in Hin as [v Hv]. congruence.
Qed.

Lemma genesisProto_balances_roundtrip_witness :
  let acc := iotextypes.Account
               (genesisProto ["b"; "a"] (withInitBalanceMap zeroGenesis balancesAB)) in
  list_to_map (zip (iotextypes.InitBalanceAddrs acc) (iotextypes.InitBalances acc))
  = balancesAB.
Proof.
  intros acc.
  apply (genesisProto_balances_roundtrip ["b"; "a"]
           (withInitBalanceMap zeroGenesis balancesAB) balancesAB_order).
Defined.

(** ** Delegate and exemption addresses *)

Section Addresses.
Context `{AddressLib}.

(** [RewardAddr] returns the absent address exactly for the empty string,
    without consulting the parser; for any other string it returns what
    [OperatorAddr] returns for that string, and panics when it panics. *)
Theorem RewardAddr_optional (d : Delegate) :
  (RewardAddr d = Return None <-> RewardAddrStr d = EmptyString) /\
  (forall d' addr,
     OperatorAddrStr d' = RewardAddrStr d -> RewardAddrStr d <> EmptyString ->
     (RewardAddr d = Return (Some addr) <-> OperatorAddr d' = Return addr) /\
     ((exists msg, RewardAddr d = Panic msg) <->
      (exists msg, OperatorAddr d' = Panic msg))).
Proof.
  unfold RewardAddr, OperatorAddr. split.
  - destruct (String.eqb_spec (RewardAddrStr d) EmptyString) as [He|Hne].
    + tauto.
    + destruct (FromString (RewardAddrStr d)); split;
        (discriminate || contradiction).
  - intros d' addr -> Hne.
    destruct (String.eqb_spec (RewardAddrStr d) EmptyString) as [He|_];
      [contradiction|].
    destruct (FromString (RewardAddrStr d)) as [a0|]; split; split;
      try (intros [= ->]; reflexivity); try discriminate;
      try (intros [msg Hmsg]; discriminate); eauto.
Qed.

Lemma exemptAddrsLoop_returns (ks : list string) (addrs addrs' : list Address) :
  exemptAddrsLoop ks addrs = Return addrs' <->
  exists new_addrs,
    Forall2 (fun k addr => FromString k = Some addr) ks new_addrs /\
    addrs' = (addrs ++ new_addrs)%list.
Proof.
  revert addrs. induction ks as [|k ks IH]; intros addrs; cbn [exemptAddrsLoop].
  - split.
    + intros [= <-]. exists []. rewrite app_nil_r. split; [constructor|reflexivity].
    + intros (na & Ha & ->). apply Forall2_nil_inv_l in Ha as ->.
      rewrite app_nil_r. reflexivity.
  - destruct (FromString k) as [addr|] eqn:Hk.
    + rewrite IH. split.
      * intros (na & Ha & ->). exists (addr :: na). rewrite <- app_assoc.
        split; [constructor; assumption | reflexivity].
      * intros (na & Ha & ->).
        apply Forall2_cons_inv_l in Ha as (a0 & na' & Ha0 & Ha & ->).
        assert (a0 = addr) as -> by congruence.
        exists na'. rewrite <- app_assoc. split; [assumption | reflexivity].
    + split; [discriminate|].
      intros (na & Ha & _).
      apply Forall2_cons_inv_l in Ha as (a0 & _ & Ha0 & _). congruence.
Qed.

Lemma exemptAddrsLoop_panics (ks : list string) (addrs : list Address) :
  (exists msg, exemptAddrsLoop ks addrs = Panic msg) <->
  Exists (fun k => FromString k = None) ks.
Proof.
  revert addrs. induction ks as [|k ks IH]; intros addrs; cbn [exemptAddrsLoop].
  - split; [intros [msg Hmsg]; discriminate | intros Hex; inversion Hex].
  - rewrite Exists_cons. destruct (FromString k) as [addr|] eqn:Hk.
    + rewrite IH. split; [auto|]. intros [?|?]; [discriminate|assumption].
    + split; eauto.
Qed.

(** [ExemptAddrsFromEpochReward] keeps the configured order and length:
    it returns the list whose i-th address is the parse of the i-th string,
    and panics exactly when some string does not parse. *)
Theorem ExemptAddrsFromEpochReward_spec (r : Rewarding) :
  (forall addrs,
     ExemptAddrsFromEpochReward r = Return addrs <->
     Forall2 (fun k addr => FromString k = Some addr)
       (ExemptAddrStrsFromEpochReward r) addrs) /\
  (forall addrs,
     ExemptAddrsFromEpochReward r = Return addrs ->
     length addrs = length (ExemptAddrStrsFromEpochReward r)) /\
  ((exists msg, ExemptAddrsFromEpochReward r = Panic msg) <->
   exists k, k ∈ ExemptAddrStrsFromEpochReward r /\ FromString k = None).
Proof.
  unfold ExemptAddrsFromEpochReward.
  assert (Hiff : forall addrs,
    exemptAddrsLoop (ExemptAddrStrsFromEpochReward r) [] = Return addrs <->
    Forall2 (fun k addr => FromString k = Some addr)
      (ExemptAddrStrsFromEpochReward r) addrs).
  { intros addrs. rewrite exemptAddrsLoop_returns. split.
    - intros (na & Ha & ->). exact Ha.
    - intros Ha. exists addrs. split; [exact Ha | reflexivity]. }
  split; [exact Hiff|]. split.
  - intros addrs Hret. apply Hiff in Hret. symmetry.
    apply (Forall2_length _ _ _ Hret).
  - rewrite exemptAddrsLoop_panics, Exists_exists. reflexivity.
Qed.
End Addresses.

Lemma RewardAddr_optional_witness :
  @RewardAddr textAddressLib (mkDelegate "io1op" EmptyString "1") = Return None /\
  (@RewardAddr textAddressLib (mkDelegate "io1op" "io1rw" "1") = Return (Some "io1rw") <->
   @OperatorAddr textAddressLib (mkDelegate "io1rw" "io1rw" "1") = Return "io1rw").
Proof.
  split.
  - apply (proj1 (@RewardAddr_optional textAddressLib
                    (mkDelegate "io1op" EmptyString "1"))).
    reflexivity.
  - apply (proj2 (@RewardAddr_optional textAddressLib
                    (mkDelegate "io1op" "io1rw" "1"))
             (mkDelegate "io1rw" "io1rw" "1") "io1rw").
    + reflexivity.
    + discriminate.
Defined.

Lemma ExemptAddrsFromEpochReward_spec_witness :
  @ExemptAddrsFromEpochReward textAddressLib
    (mkRewarding "1" "1" "1" "1" "1" 0 ["io1a"; "io1b"] "1" 0 0 0 0 0 "1")
  = Return ["io1a"; "io1b"].
Proof.
  apply (proj2 (proj1 (@ExemptAddrsFromEpochReward_spec textAddressLib
           (mkRewarding "1" "1" "1" "1" "1" 0 ["io1a"; "io1b"] "1" 0 0 0 0 0 "1"))
           ["io1a"; "io1b"])).
  repeat constructor.
Defined.

(** ** The allowlist lookup, entry by entry *)

Section AllowlistOutcomes.
Context `{AddressLib}.

Lemma whitelistLoop_cons_long (deployer : Address) (v : string)
    (rest : list string) :
  (3 <= String.length v)%nat ->
  whitelistLoop deployer (v :: rest)
  = if entryMatches deployer v then Return true else whitelistLoop deployer rest.
Proof.
  intros Hv. cbn [whitelistLoop]. rewrite (sliceTo_long v 3 Hv).
  unfold entryMatches.
  destruct (String.eqb (substring 0 3 v) "io1").
  - destruct (FromString v) as [addr|]; [|reflexivity].
    destruct (Equal deployer addr); reflexivity.
  - destruct (IsHexAddress v); [|reflexivity].
    destruct (FromHex v) as [addr|]; [|reflexivity].
    destruct (Equal deployer addr); reflexivity.
Qed.

Lemma whitelistLoop_cons_short (deployer : Address) (v : string)
    (rest : list string) :
  (String.length v < 3)%nat ->
  whitelistLoop deployer (v :: rest)
  = Panic "runtime error: slice bounds out of range".
Proof.
  intros Hv. cbn [whitelistLoop]. rewrite (sliceTo_short v 3 Hv). reflexivity.
Qed.

Lemma passedOver_cons (deployer : Address) (v : string) (pre : list string) :
  passedOver deployer (v :: pre) <->
  (3 <= String.length v)%nat /\ entryMatches deployer v = false /\
  passedOver deployer pre.
Proof.
  unfold passedOver. rewrite Forall_cons. cbn [existsb].
  rewrite orb_false_iff. tauto.
Qed.

Lemma passedOver_nil (deployer : Address) : passedOver deployer [].
Proof. split; [constructor | reflexivity]. Qed.

(** The lookup answers true exactly when some entry matches the deployer
    and every entry before it has at least three bytes and does not match:
    entries behind the first match are not looked at. *)
Theorem IsDeployerWhitelisted_true_iff (a : Account) (deployer : Address) :
  IsDeployerWhitelisted a deployer = Return true <->
  exists pre v rest,
    ReplayDeployerWhitelist a = (pre ++ v :: rest)%list /\
    passedOver deployer pre /\
    (3 <= String.length v)%nat /\ entryMatches deployer v = true.
Proof.
  unfold IsDeployerWhitelisted.
  induction (ReplayDeployerWhitelist a) as [|w l IH].
  - split; [discriminate|]. intros (pre & v & rest & Heq & _).
    destruct pre; discriminate Heq.
  - destruct (le_lt_dec 3 (String.length w)) as [Hlong|Hshort].
    + rewrite (whitelistLoop_cons_long deployer w l Hlong).
      destruct (entryMatches deployer w) eqn:Hm.
      * split; [|reflexivity]. intros _. exists [], w, l.
        split; [reflexivity|]. split; [apply passedOver_nil|]. auto.
      * rewrite IH. split.
        -- intros (pre & v & rest & -> & Hpre & Hv & Hmatch).
           exists (w :: pre), v, rest. split; [reflexivity|].
           split; [apply passedOver_cons; auto|]. auto.
        -- intros (pre & v & rest & Heq & Hpre & Hv & Hmatch).
           destruct pre as [|w' pre]; cbn in Heq; injection Heq as <- ->.
           ++ congruence.
           ++ apply passedOver_cons in Hpre as (_ & _ & Hpre).
              exists pre, v, rest. auto.
    + rewrite (whitelistLoop_cons_short deployer w l Hshort).
      split; [discriminate|].
      intros (pre & v & rest & Heq & Hpre & Hv & _).
      destruct pre as [|w' pre]; cbn in Heq; injection Heq as <- ->.
      * lia.
      * apply passedOver_cons in Hpre as (Hw & _). lia.
Qed.

(** The lookup answers false exactly when every entry has at least three
    bytes and none matches; it panics exactly when an entry of fewer than
    three bytes is reached, that is, comes before any match. *)
Theorem IsDeployerWhitelisted_false_or_panic (a : Account) (deployer : Address) :
  (IsDeployerWhitelisted a deployer = Return false <->
   passedOver deployer (ReplayDeployerWhitelist a)) /\
  ((exists msg, IsDeployerWhitelisted a deployer = Panic msg) <->
   exists pre v rest,
     ReplayDeployerWhitelist a = (pre ++ v :: rest)%list /\
     passedOver deployer pre /\ (String.length v < 3)%nat).
Proof.
  unfold IsDeployerWhitelisted.
  induction (ReplayDeployerWhitelist a) as [|w l [IHf IHp]].
  - split.
    + split; [intros _; apply passedOver_nil | reflexivity].
    + split; [intros [msg Hmsg]; discriminate|].
      intros (pre & v & rest & Heq & _). destruct pre; discriminate Heq.
  - destruct (le_lt_dec 3 (String.length w)) as [Hlong|Hshort].
    + rewrite (whitelistLoop_cons_long deployer w l Hlong).
      rewrite passedOver_cons.
      destruct (entryMatches deployer w) eqn:Hm.
      * split.
        -- split; [discriminate | intros (_ & Hf & _); discriminate].
        -- split; [intros [msg Hmsg]; discriminate|].
           intros (pre & v & rest & Heq & Hpre & Hv).
           destruct pre as [|w' pre]; cbn in Heq; injection Heq as <- ->.
           ++ lia.
           ++ apply passedOver_cons in Hpre as (_ & Hf & _). congruence.
      * split.
        -- rewrite IHf. tauto.
        -- rewrite IHp. split.
           ++ intros (pre & v & rest & -> & Hpre & Hv).
              exists (w :: pre), v, rest. split; [reflexivity|].
              split; [apply passedOver_cons; auto | exact Hv].
           ++ intros (pre & v & rest & Heq & Hpre & Hv).
              destruct pre as [|w' pre]; cbn in Heq; injection Heq as <- ->.
              ** lia.
              ** apply passedOver_cons in Hpre as (_ & _ & Hpre).
                 exists pre, v, rest. auto.
    + rewrite (whitelistLoop_cons_short deployer w l Hshort). split.
      * split; [discriminate|]. intros Hp.
        apply passedOver_cons in Hp as (Hw & _). lia.
      * split; [|eauto]. intros _. exists [], w, l.
        split; [reflexivity|]. split; [apply passedOver_nil | exact Hshort].
Qed.
End AllowlistOutcomes.

Lemma IsDeployerWhitelisted_true_iff_witness :
  @IsDeployerWhitelisted textAddressLib
    (mkAccount ∅ ["io1abc"; "0xdef"; "0x"]) "0xdef" = Return true.
Proof.
  apply (proj2 (@IsDeployerWhitelisted_true_iff textAddressLib
                  (mkAccount ∅ ["io1abc"; "0xdef"; "0x"]) "0xdef")).
  exists ["io1abc"], "0xdef", ["0x"].
  split; [reflexivity|]. split; [|split; [cbn; lia | reflexivity]].
  split; [repeat constructor; cbn; lia | reflexivity].
Defined.

Lemma IsDeployerWhitelisted_false_or_panic_witness :
  @IsDeployerWhitelisted textAddressLib
    (mkAccount ∅ ["io1abc"; "0xdef"]) "0xfff" = Return false /\
  exists msg,
    @IsDeployerWhitelisted textAddressLib
      (mkAccount ∅ ["io1abc"; "0x"; "0xfff"]) "0xfff" = Panic msg.
Proof.
  split.
  - apply (proj1 (@IsDeployerWhitelisted_false_or_panic textAddressLib
                    (mkAccount ∅ ["io1abc"; "0xdef"]) "0xfff")).
    split; [repeat constructor; cbn; lia | reflexivity].
  - apply (proj2 (@IsDeployerWhitelisted_false_or_panic textAddressLib
                    (mkAccount ∅ ["io1abc"; "0x"; "0xfff"]) "0xfff")).
    exists ["io1abc"], "0x", ["0xfff"].
    split; [reflexivity|]. split; [|cbn; lia].
    split; [repeat constructor; cbn; lia | reflexivity].
Defined.

(** ** Gates and tiers beyond the shipped ordering *)

(** When the Wake height is not above the Tsunami height, the Tsunami limit
    never applies: the limit is the Wake limit from the Wake height on and
    the base limit below it. *)
Theorem BlockGasLimitByHeight_shadowed (g : Blockchain) (height : Z) :
  WakeBlockHeight g <= TsunamiBlockHeight g ->
  BlockGasLimitByHeight g height
  = if IsWake g height then WakeBlockGasLimit g else BlockGasLimit g.
Proof.
  intros Hord. destruct (BlockGasLimitByHeight_cases g height) as (Cw & Ct & Cb).
  unfold IsWake. destruct (isPost g (WakeBlockHeight g) height) eqn:Ew.
  - apply Cw. apply isPost_spec in Ew. exact Ew.
  - apply isPost_false in Ew. apply Cb; lia.
Qed.

Lemma BlockGasLimitByHeight_shadowed_witness :
  let g := setForkHeights
             (gBlockchain (defaultConfig (Z.mul 1000000000000000000) pretty))
             (fun F => match F with Wake => 100 | _ => 200 end) in
  BlockGasLimitByHeight g 250 = 25000000 /\ BlockGasLimitByHeight g 99 = 20000000.
Proof.
  intros g. split.
  - apply (BlockGasLimitByHeight_shadowed g 250). cbn. lia.
  - apply (BlockGasLimitByHeight_shadowed g 99). cbn. lia.
Defined.

(** A fork configured no later than another is active wherever the other
    is: with heights in release order, a later fork implies every earlier
    one. *)
Theorem isActive_ordered (g : Blockchain) (F1 F2 : Fork) (h : Z) :
  forkHeight g F1 <= forkHeight g F2 ->
  isActive g F2 h = true -> isActive g F1 h = true.
Proof.
  intros Hord. rewrite !isActive_isPost, !isPost_spec. lia.
Qed.

Lemma isActive_ordered_witness :
  isActive (gBlockchain (defaultConfig (Z.mul 1000000000000000000) pretty))
    Tsunami 36893881 = true.
Proof.
  apply (isActive_ordered
           (gBlockchain (defaultConfig (Z.mul 1000000000000000000) pretty))
           Tsunami Wake 36893881).
  - cbn. lia.
  - reflexivity.
Defined.

(** ** The set-once cell from its fresh state *)

(** From a fresh cell, whatever calls follow, every read returns either the
    initial value or the value of the first set, none of a later set; the
    cell ends holding the first set value, or untouched if nothing was set. *)
Theorem Timestamp_reads_from_fresh (s : Pkg.vars) (cs : list Pkg.call) :
  Pkg.loadGenesisTs s = false ->
  Forall (fun r => r = Pkg.genesisTs s \/ firstSet cs = Some r)
    (snd (Pkg.run cs s)) /\
  fst (Pkg.run cs s)
  = match firstSet cs with Some t => Pkg.mkVars t true | None => s end.
Proof.
  intros Hfresh. induction cs as [|[ts|] cs IH]; cbn [Pkg.run firstSet].
  - split; [constructor | reflexivity].
  - rewrite (SetGenesisTimestamp_first s ts Hfresh).
    destruct (run_after_set cs (Pkg.mkVars ts true) eq_refl) as [Hs Hr].
    split; [|exact Hs].
    eapply Forall_impl; [exact Hr|]. intros r ->. right. reflexivity.
  - destruct (Pkg.run cs s) as [s' reads]. cbn [fst snd] in *.
    destruct IH as [IHr IHs]. split; [|exact IHs].
    constructor; [left; reflexivity | exact IHr].
Qed.

Lemma Timestamp_reads_from_fresh_witness :
  snd (Pkg.run [Pkg.CallRead; Pkg.CallSet 7; Pkg.CallRead; Pkg.CallSet 9;
                Pkg.CallRead] Pkg.init) = [0; 7; 7] /\
  fst (Pkg.run [Pkg.CallRead; Pkg.CallSet 7; Pkg.CallRead; Pkg.CallSet 9;
                Pkg.CallRead] Pkg.init) = Pkg.mkVars 7 true.
Proof.
  split; [reflexivity|].
  apply (proj2 (Timestamp_reads_from_fresh Pkg.init
    [Pkg.CallRead; Pkg.CallSet 7; Pkg.CallRead; Pkg.CallSet 9; Pkg.CallRead]
    eq_refl)).
Defined.

(** ** What [New] hands back *)

Lemma defaultInitBalanceMap_nonempty : defaultInitBalanceMap <> ∅.
Proof.
  intros Hempty.
  assert (Hk : defaultInitBalanceMap !! "io1uqhmnttmv0pg8prugxxn7d8ex9angrvfjfthxa"
               = Some "9800000000000000000000000000") by (vm_compute; reflexivity).
  rewrite Hempty, lookup_empty in Hk. discriminate Hk.
Qed.

Section LoadingResults.
Variable ConvertIotxToRau : Z -> Z.
Variable BigInt_String : Z -> string.
Context `{ConfigLib}.

(** [New] returns either an error next to the zero [Genesis], or no error
    next to what the library populated, with the bootstrap balance table
    put in place of an empty table and nothing else changed: a loaded
    parameter set never has an empty balance table, and a table that the
    overrides supply is never replaced. *)
Theorem New_result (fs : FileSystem) (genesisPath : string) (g' : Genesis)
    (err : option string) :
  New ConvertIotxToRau BigInt_String fs genesisPath = (g', err) ->
  (err <> None -> g' = zeroGenesis) /\
  (err = None ->
   InitBalanceMap (gAccount g') <> ∅ /\
   exists p g,
     NewYAML fs
       (Static (defaultConfig ConvertIotxToRau BigInt_String)
        :: (if String.eqb genesisPath EmptyString then [] else [File genesisPath]))
     = inl p /\
     Populate p = inl g /\
     (InitBalanceMap (gAccount g) <> ∅ -> g' = g) /\
     (InitBalanceMap (gAccount g) = ∅ ->
      g' = withInitBalanceMap g defaultInitBalanceMap)).
Proof.
  unfold New.
  replace (if String.eqb genesisPath EmptyString
           then [Static (defaultConfig ConvertIotxToRau BigInt_String)]
           else ([Static (defaultConfig ConvertIotxToRau BigInt_String)]
                 ++ [File genesisPath])%list)
    with (Static (defaultConfig ConvertIotxToRau BigInt_String)
          :: (if String.eqb genesisPath EmptyString then [] else [File genesisPath]))
    by (destruct (String.eqb genesisPath EmptyString); reflexivity).
  destruct (NewYAML fs _) as [p|e1] eqn:Hnew.
  - destruct (Populate p) as [g|e2] eqn:Hpop.
    + case_bool_decide as Hsize.
      * intros [= <- <-]. split; [congruence|]. intros _.
        split; [cbn; apply defaultInitBalanceMap_nonempty|].
        exists p, g. repeat split; try assumption.
        intros Hne. exfalso. apply Hne. apply map_size_empty_inv, Hsize.
      * intros [= <- <-]. split; [congruence|]. intros _.
        assert (Hne : InitBalanceMap (gAccount g) <> ∅).
        { intros Hempty. apply Hsize. rewrite Hempty. apply map_size_empty. }
        split; [exact Hne|].
        exists p, g. repeat split; try assumption. intros Hempty. contradiction.
    + intros [= <- <-]. split; [reflexivity | discriminate].
  - intros [= <- <-]. split; [reflexivity | discriminate].
Qed.
End LoadingResults.

Lemma New_result_witness :
  InitBalanceMap
    (gAccount (fst (@New (Z.mul 1000000000000000000) pretty strictConfigLib
                      bogusFiles EmptyString))) <> ∅.
Proof.
  refine (proj1 (proj2 (@New_result (Z.mul 1000000000000000000) pretty
            strictConfigLib bogusFiles EmptyString _ None _) eq_refl)).
  reflexivity.
Defined.

(** ** The test defaults *)

Section TestDefaultProperties.
Variable ConvertIotxToRau : Z -> Z.
Variable BigInt_String : Z -> string.
Variable identitySize : Z.
Variable identityAddress : Z -> string.

Local Abbreviation value := (BigInt_String (ConvertIotxToRau 100000000)).
Local Abbreviation step :=
  (testDefaultStep ConvertIotxToRau BigInt_String identityAddress).
Local Abbreviation init := (testDefaultInit ConvertIotxToRau BigInt_String).

Lemma identityRange_S (n : nat) :
  identityRange (S n) = (identityRange n ++ [Z.of_nat n])%list.
Proof. unfold identityRange. rewrite seq_S, fmap_app. reflexivity. Qed.

(** What the loop has built after [n] rounds. *)
Lemma testDefault_rounds (n : nat) :
  let cfg := foldl step init (identityRange n) in
  gBlockchain cfg = gBlockchain init /\
  gRewarding cfg = gRewarding init /\ gStaking cfg = gStaking init /\
  ReplayDeployerWhitelist (gAccount cfg) = ReplayDeployerWhitelist (gAccount init) /\
  setDelegates (gPoll cfg) [] = gPoll init /\
  Delegates (gPoll cfg)
  = testDelegate identityAddress value <$> identityRange (Nat.min n 24) /\
  (forall k v, InitBalanceMap (gAccount cfg) !! k = Some v <->
     v = value /\ exists i, (i < n)%nat /\ k = identityAddress (Z.of_nat i)).
Proof.
  induction n as [|n IH].
  - cbn [identityRange seq fmap list_fmap foldl Nat.min].
    split; [reflexivity|]. split; [reflexivity|]. split; [reflexivity|].
    split; [reflexivity|]. split; [reflexivity|]. split; [reflexivity|].
    intros k v. cbn. rewrite lookup_empty. split; [discriminate|].
    intros (_ & i & Hi & _). lia.
  - rewrite identityRange_S, foldl_app. cbn [foldl].
    set (cfg := foldl step init (identityRange n)) in *. cbv zeta in IH.
    destruct IH as (Hb & Hr & Hs & Hw & Hp & Hd & Hm).
    assert (Hmap : forall k v,
      <[identityAddress (Z.of_nat n) := value]> (InitBalanceMap (gAccount cfg)) !! k
      = Some v <->
      v = value /\ exists i, (i < S n)%nat /\ k = identityAddress (Z.of_nat i)).
    { intros k v. rewrite lookup_insert. case_decide as Hk.
      - subst k. split.
        + intros [= <-]. split; [reflexivity|]. exists n. split; [lia|reflexivity].
        + intros [-> _]. reflexivity.
      - rewrite Hm. split.
        + intros (-> & i & Hi & ->). split; [reflexivity|]. exists i. split; [lia|reflexivity].
        + intros (-> & i & Hi & ->). split; [reflexivity|].
          exists i. split; [|reflexivity].
          destruct (decide (i = n)) as [->|]; [contradiction|lia]. }
    assert (Hstep : step cfg (Z.of_nat n)
      = let cfg1 := withInitBalanceMap cfg
                      (<[identityAddress (Z.of_nat n) := value]>
                         (InitBalanceMap (gAccount cfg))) in
        if Z.of_nat n <? 24 then
          withPoll cfg1
            (setDelegates (gPoll cfg1)
               (Delegates (gPoll cfg1)
                ++ [testDelegate identityAddress value (Z.of_nat n)])%list)
        else cfg1).
    { unfold testDefaultStep. cbn [gBlockchain withInitBalanceMap].
      rewrite Hb. reflexivity. }
    rewrite Hstep. cbv zeta.
    destruct (Z.ltb_spec (Z.of_nat n) 24) as [Hlt|Hge];
      cbn [withPoll withInitBalanceMap gBlockchain gAccount gPoll gRewarding
           gStaking InitBalanceMap ReplayDeployerWhitelist].
    + split; [exact Hb|]. split; [exact Hr|]. split; [exact Hs|].
      split; [exact Hw|]. split; [rewrite <- Hp; reflexivity|].
      split; [|exact Hmap].
      cbn [setDelegates Delegates]. rewrite Hd.
      replace (Nat.min (S n) 24) with (S (Nat.min n 24)) by lia.
      rewrite identityRange_S, fmap_app.
      replace (Nat.min n 24) with n by lia. reflexivity.
    + split; [exact Hb|]. split; [exact Hr|]. split; [exact Hs|].
      split; [exact Hw|]. split; [exact Hp|]. split; [|exact Hmap].
      rewrite Hd. f_equal. f_equal. lia.
Qed.

Lemma TestDefault_delegates_list :
  Delegates
    (gPoll (TestDefault ConvertIotxToRau BigInt_String identitySize identityAddress))
  = testDelegate identityAddress value
      <$> identityRange (Nat.min (Z.to_nat identitySize) 24).
Proof.
  destruct (testDefault_rounds (Z.to_nat identitySize))
    as (_ & _ & _ & _ & _ & Hd & _).
  exact Hd.
Qed.

(** [TestDefault] lists as delegates the first 24 test identities, or all
    of them if there are fewer, in identity order, each with its own address
    as reward address and with votes equal to its initial balance. *)
Theorem TestDefault_delegates :
  let cfg := TestDefault ConvertIotxToRau BigInt_String identitySize identityAddress in
  Delegates (gPoll cfg)
  = testDelegate identityAddress value
      <$> identityRange (Nat.min (Z.to_nat identitySize) 24) /\
  forall d, d ∈ Delegates (gPoll cfg) ->
    RewardAddrStr d = OperatorAddrStr d /\
    InitBalanceMap (gAccount cfg) !! OperatorAddrStr d = Some (VotesStr d).
Proof.
  intros cfg.
  destruct (testDefault_rounds (Z.to_nat identitySize))
    as (_ & _ & _ & _ & _ & Hd & Hm).
  fold (identityRange (Z.to_nat identitySize)) in cfg.
  change (foldl step init (identityRange (Z.to_nat identitySize))) with cfg in Hd, Hm.
  split; [exact Hd|].
  intros d Hin. rewrite Hd in Hin.
  apply list_elem_of_fmap in Hin as (i & -> & Hi).
  split; [reflexivity|]. cbn. apply Hm. split; [reflexivity|].
  unfold identityRange in Hi. apply list_elem_of_fmap in Hi as (j & -> & Hj).
  apply elem_of_seq in Hj. exists j. split; [lia | reflexivity].
Qed.

(** The balance table of [TestDefault] holds the addresses of the test
    identities and nothing else, each with the same amount. *)
Theorem TestDefault_balances (k v : string) :
  InitBalanceMap
    (gAccount (TestDefault ConvertIotxToRau BigInt_String identitySize identityAddress))
    !! k = Some v <->
  v = value /\ exists i, 0 <= i < identitySize /\ k = identityAddress i.
Proof.
  destruct (testDefault_rounds (Z.to_nat identitySize))
    as (_ & _ & _ & _ & _ & _ & Hm).
  unfold TestDefault. fold (identityRange (Z.to_nat identitySize)).
  rewrite Hm. split.
  - intros (-> & i & Hi & ->). split; [reflexivity|].
    exists (Z.of_nat i). split; [lia | reflexivity].
  - intros (-> & i & Hi & ->). split; [reflexivity|].
    exists (Z.to_nat i). split; [lia|]. rewrite Z2Nat.id by lia. reflexivity.
Qed.

End TestDefaultProperties.

Lemma TestDefault_delegates_witness :
  let cfg := TestDefault (Z.mul 1000000000000000000) pretty 30 testIdentity in
  length (Delegates (gPoll cfg)) = 24%nat /\
  InitBalanceMap (gAccount cfg) !! "io1test0"
  = Some "100000000000000000000000000".
Proof.
  intros cfg.
  destruct (TestDefault_delegates (Z.mul 1000000000000000000) pretty 30 testIdentity)
    as [Hd Hfunded].
  split.
  - fold cfg in Hd. rewrite Hd. reflexivity.
  - apply (Hfunded (testDelegate testIdentity "100000000000000000000000000" 0)).
    rewrite Hd. apply list_elem_of_fmap. exists 0. split; [reflexivity|].
    vm_compute. left.
Defined.

Lemma TestDefault_balances_witness :
  InitBalanceMap
    (gAccount (TestDefault (Z.mul 1000000000000000000) pretty 30 testIdentity))
    !! "io1test29" = Some "100000000000000000000000000".
Proof.
  apply (proj2 (TestDefault_balances (Z.mul 1000000000000000000) pretty 30
                  testIdentity "io1test29" "100000000000000000000000000")).
  split; [reflexivity|]. exists 29. split; [lia | reflexivity].
Defined.


(** ** Rendering and parsing amounts *)

Lemma pretty_N_char_digit (n : N) :
  (n < 10)%N -> pretty_N_char n = digitChar (Z.of_N n).
Proof.
  intros Hn. destruct n as [|p]; [reflexivity|].
  do 4 (try (destruct p as [p|p|]; try reflexivity; try lia)).
Qed.

Lemma renderDigits_snoc (ds : list Z) (d : Z) (s : string) :
  renderDigits (ds ++ [d]) +:+ s = renderDigits ds +:+ String (digitChar d) s.
Proof.
  induction ds as [|d0 ds IH]; [reflexivity|].
  cbn [app renderDigits].
  change (String (digitChar d0) (renderDigits (ds ++ [d])) +:+ s)
    with (String (digitChar d0) (renderDigits (ds ++ [d]) +:+ s)).
  rewrite IH. reflexivity.
Qed.

Lemma digitsValue_snoc (ds : list Z) (d : Z) :
  digitsValue (ds ++ [d]) = digitsValue ds * 10 + d.
Proof.
  induction ds as [|d0 ds IH]; [cbn; lia|].
  cbn [app digitsValue]. rewrite IH, length_app. cbn [length].
  rewrite Nat.add_1_r, Nat2Z.inj_succ, Z.pow_succ_r by lia. lia.
Qed.

(** The decimal printer writes the digits of its argument in front of the
    text it is given. *)
Lemma pretty_N_go_digits (x : N) (s : string) :
  exists ds,
    Forall (fun d => 0 <= d <= 9) ds /\
    pretty_N_go x s = renderDigits ds +:+ s /\
    digitsValue ds = Z.of_N x /\ ((0 < x)%N -> ds <> []).
Proof.
  revert s. induction (N.lt_wf_0 x) as [x _ IH]. intros s.
  destruct (N.eq_dec x 0%N) as [->|Hx].
  - exists []. rewrite pretty_N_go_0.
    split; [constructor|]. split; [reflexivity|]. split; [reflexivity|lia].
  - assert (Hpos : (0 < x)%N) by lia.
    rewrite (pretty_N_go_step x s Hpos).
    destruct (IH (x `div` 10)%N (N.div_lt x 10%N Hpos eq_refl)
                (String (pretty_N_char (x `mod` 10)) s))
      as (ds & Hds & Hgo & Hval & _).
    pose proof (N.mod_lt x 10%N ltac:(lia)) as Hmod.
    exists (ds ++ [Z.of_N (x `mod` 10)])%list.
    split; [|split; [|split]].
    + apply Forall_app. split; [exact Hds|].
      constructor; [|constructor].
      pose proof (N2Z.is_nonneg (x `mod` 10)%N) as Hlo.
      pose proof (proj1 (N2Z.inj_lt _ _) Hmod) as Hhi.
      change (Z.of_N 10) with 10 in Hhi. clear -Hlo Hhi.
      generalize dependent (Z.of_N (x `mod` 10)%N). intros m Hlo Hhi. lia.
    + rewrite Hgo, renderDigits_snoc, pretty_N_char_digit by exact Hmod.
      reflexivity.
    + rewrite digitsValue_snoc, Hval.
      rewrite (N.div_mod x 10%N) at 3 by discriminate.
      rewrite N2Z.inj_add, N2Z.inj_mul. change (Z.of_N 10) with 10.
      apply Z.add_cancel_r, Z.mul_comm.
    + intros _ Hnil. apply app_eq_nil in Hnil as [_ Hnil]. discriminate Hnil.
Qed.

Lemma app_empty_r (s : string) : s +:+ EmptyString = s.
Proof.
  induction s as [|c s IH]; [reflexivity|].
  change (String c s +:+ EmptyString) with (String c (s +:+ EmptyString)).
  rewrite IH. reflexivity.
Qed.

Lemma pretty_positive_denotes (p : positive) :
  exists ds, ds <> [] /\ Forall (fun d => 0 <= d <= 9) ds /\
    pretty (Npos p) = renderDigits ds /\ digitsValue ds = Zpos p.
Proof.
  destruct (pretty_N_go_digits (Npos p) EmptyString) as (ds & Hds & Hgo & Hval & Hne).
  exists ds. split; [apply Hne; lia|]. split; [exact Hds|].
  split; [|exact Hval].
  unfold pretty, pretty_N. destruct (decide (Npos p = 0%N)) as [Hz|_]; [discriminate|].
  rewrite Hgo. apply app_empty_r.
Qed.

(** Parsing what the decimal printer writes gives the integer back. *)
Lemma SetString10_pretty (z : Z) : SetString10 (pretty z) = Some z.
Proof.
  apply SetString10_sound. destruct z as [|p|p].
  - exists NoSign, [0]. split; [discriminate|].
    split; [repeat constructor; lia|]. split; reflexivity.
  - destruct (pretty_positive_denotes p) as (ds & Hne & Hds & Hp & Hv).
    exists NoSign, ds. split; [exact Hne|]. split; [exact Hds|].
    split; [exact Hp | cbn; lia].
  - destruct (pretty_positive_denotes p) as (ds & Hne & Hds & Hp & Hv).
    exists MinusSign, ds. split; [exact Hne|]. split; [exact Hds|].
    split; [|cbn; lia].
    change (pretty (Z.neg p)) with ("-" +:+ pretty (Npos p)).
    rewrite Hp. reflexivity.
Qed.

(** On the built-in defaults no reward accessor panics: with a [String]
    method whose output [SetString] reads back, each accessor returns the
    amount in Rau that [defaultConfig] converted, and [WakeBlockReward]
    returns 4 * 10^18. *)
Theorem default_amounts_materialize (ConvertIotxToRau : Z -> Z)
    (BigInt_String : Z -> string) :
  (forall z, SetString10 (BigInt_String z) = Some z) ->
  let r := gRewarding (defaultConfig ConvertIotxToRau BigInt_String) in
  InitBalance r = Return (ConvertIotxToRau 200000000) /\
  BlockReward r = Return (ConvertIotxToRau 16) /\
  DardanellesBlockReward r = Return (ConvertIotxToRau 8) /\
  EpochReward r = Return (ConvertIotxToRau 12500) /\
  AleutianEpochReward r = Return (ConvertIotxToRau 18750) /\
  FoundationBonus r = Return (ConvertIotxToRau 80) /\
  WakeBlockReward r = Return 4000000000000000000.
Proof.
  intros Hround r.
  unfold InitBalance, BlockReward, DardanellesBlockReward, EpochReward,
    AleutianEpochReward, FoundationBonus. subst r.
  cbn [gRewarding defaultConfig InitBalanceStr BlockRewardStr
       DardanellesBlockRewardStr EpochRewardStr AleutianEpochRewardStr
       FoundationBonusStr].
  rewrite !Hround. repeat split; reflexivity.
Qed.

Lemma default_amounts_materialize_witness :
  BlockReward (gRewarding (defaultConfig (Z.mul 1000000000000000000) pretty))
  = Return 16000000000000000000.
Proof.
  apply (default_amounts_materialize (Z.mul 1000000000000000000) pretty
           SetString10_pretty).
Defined.

(** With a [String] method whose output [SetString] reads back, the votes
    of every delegate of [TestDefault] materialize, to the Rau amount of
    100000000 IOTX. *)
Theorem TestDefault_votes (ConvertIotxToRau : Z -> Z)
    (BigInt_String : Z -> string) (identitySize : Z)
    (identityAddress : Z -> string) (d : Delegate) :
  (forall z, SetString10 (BigInt_String z) = Some z) ->
  d ∈ Delegates
        (gPoll (TestDefault ConvertIotxToRau BigInt_String identitySize
                  identityAddress)) ->
  Votes d = Return (ConvertIotxToRau 100000000).
Proof.
  intros Hround Hin.
  rewrite (TestDefault_delegates_list ConvertIotxToRau BigInt_String
             identitySize identityAddress) in Hin. apply list_elem_of_fmap in Hin as (i & -> & _).
  unfold Votes, testDelegate. cbn [VotesStr]. rewrite Hround. reflexivity.
Qed.

Lemma TestDefault_votes_witness :
  Votes (testDelegate testIdentity "100000000000000000000000000" 23)
  = Return 100000000000000000000000000.
Proof.
  apply (TestDefault_votes (Z.mul 1000000000000000000) pretty 30 testIdentity
           (testDelegate testIdentity "100000000000000000000000000" 23)
           SetString10_pretty).
  rewrite (TestDefault_delegates_list (Z.mul 1000000000000000000) pretty 30
             testIdentity).
  apply list_elem_of_fmap. exists 23. split; [reflexivity|].
  vm_compute. repeat (first [left | right]).
Defined.
